(** * ROI matching, sampling, target expansion and decoding
    (libs/layers/roi.py)

    A shallow embedding of [encode], [decode], [_compute_targets] and
    [_unmap].  NumPy arrays are lists (1-D) or lists of rows together with
    their column count (2-D); array entries are rationals, which stand for
    the floating-point values of the program (rounding and the float32
    casts are not modelled).  Python exceptions are an explicit error
    result.  The process-wide random generator is threaded as a state. *)

From Stdlib Require Import QArith Qround ZArith Lia.
From stdpp Require Import base list.

Local Open Scope Z_scope.
Local Open Scope nat_scope.

(** ** Exceptions and the error monad *)

Inductive exn : Type :=
  | AssertionError
  | IndexError
  | ValueError.

Inductive result (A : Type) : Type :=
  | Ok (a : A)
  | Raise (e : exn).
Arguments Ok {A} a.
Arguments Raise {A} e.

#[global] Instance result_ret : MRet result := fun A a => Ok a.
#[global] Instance result_bind : MBind result :=
  fun A B f m => match m with Ok a => f a | Raise e => Raise e end.

(** Python's [assert]. *)
Definition py_assert (b : bool) : result unit :=
  if b then Ok tt else Raise AssertionError.

(** ** Scalars *)

Definition Qltb (x y : Q) : bool := negb (Qle_bool y x).

(** Python's [int(x)] on a number: truncation towards zero. *)
Definition py_int (q : Q) : Z := Z.quot (Qnum q) (Zpos (Qden q)).

(** Python's builtin [min(a, b)]: [b] when [b < a], otherwise [a]. *)
Definition py_min (a b : Q) : Q := if Qltb b a then b else a.

(** ** The NumPy operations used by the module *)

Module np.

(** A 2-D array: [shape = (length rows, ncols)].  The column count is
    kept apart from the rows because an array with no row still has one. *)
Record matrix : Type := Mat { ncols : nat; rows : list (list Q) }.

Definition shape0 (m : matrix) : nat := length (rows m).
Definition shape1 (m : matrix) : nat := ncols m.

Definition wf (m : matrix) : Prop :=
  Forall (fun r => length r = ncols m) (rows m).

(** What [_unmap] receives: [len(data.shape) == 1] or not. *)
Inductive ndarray : Type :=
  | Arr1 (v : list Q)
  | Arr2 (m : matrix).

(** [a[i]] with a non-negative integer index. *)
Definition getitem {A} (l : list A) (i : nat) : result A :=
  match l !! i with
  | Some x => Ok x
  | None => Raise IndexError
  end.

(** [a[inds]] with an integer index array. *)
Fixpoint take_ {A} (l : list A) (inds : list nat) : result (list A) :=
  match inds with
  | [] => Ok []
  | i :: inds' => x ← getitem l i; xs ← take_ l inds'; Ok (x :: xs)
  end.

(** [a[start:stop]] with non-negative bounds (clipped to the array). *)
Definition slice {A} (start stop : nat) (l : list A) : list A :=
  take (stop - start) (drop start l).

(** [m[:, start:stop]]. *)
Definition cols (start stop : nat) (m : matrix) : matrix :=
  Mat (Nat.min stop (ncols m) - start) (map (slice start stop) (rows m)).

(** [np.where(mask)[0]]: the positions of the true entries, ascending. *)
Fixpoint where_from (i : nat) (mask : list bool) : list nat :=
  match mask with
  | [] => []
  | b :: mask' =>
      if b then i :: where_from (S i) mask' else where_from (S i) mask'
  end.
Definition where_ (mask : list bool) : list nat := where_from 0 mask.

(** The scan of [argmax]/[max] along one row: the running best is
    replaced only by a strictly larger entry, so the first maximum wins. *)
Fixpoint argmax_from (bi : nat) (b : Q) (i : nat) (xs : list Q) : nat :=
  match xs with
  | [] => bi
  | x :: xs' =>
      if Qltb b x then argmax_from i x (S i) xs'
      else argmax_from bi b (S i) xs'
  end.

Fixpoint max_from (b : Q) (xs : list Q) : Q :=
  match xs with
  | [] => b
  | x :: xs' => if Qltb b x then max_from x xs' else max_from b xs'
  end.

(** [row.argmax()]; an empty row raises ValueError. *)
Definition argmax (xs : list Q) : result nat :=
  match xs with
  | [] => Raise ValueError
  | x :: xs' => Ok (argmax_from 0 x 1 xs')
  end.

(** [row.max()]. *)
Definition amax (xs : list Q) : result Q :=
  match xs with
  | [] => Raise ValueError
  | x :: xs' => Ok (max_from x xs')
  end.

Fixpoint mapM {A B} (f : A -> result B) (l : list A) : result (list B) :=
  match l with
  | [] => Ok []
  | a :: l' => b ← f a; bs ← mapM f l'; Ok (b :: bs)
  end.

(** [np.zeros((n, w))]; a negative dimension raises ValueError. *)
Definition zeros2 (n : nat) (w : Z) : result matrix :=
  if (w <? 0)%Z then Raise ValueError
  else Ok (Mat (Z.to_nat w) (replicate n (replicate (Z.to_nat w) 0%Q))).

(** Broadcasting of an assigned value to [n] items: the value has [n]
    items already, or a single item that is repeated. *)
Definition broadcast_to {A} (n : nat) (vals : list A) : result (list A) :=
  if length vals =? n then Ok vals
  else match vals with
       | [v] => Ok (replicate n v)
       | _ => Raise ValueError
       end.

(** [row[start:stop] = vals] on the (clipped) slice. *)
Definition setslice (row : list Q) (start stop : nat) (vals : list Q)
  : result (list Q) :=
  vals' ← broadcast_to (length (slice start stop row)) vals;
  Ok (list_inserts start vals' row).

(** [row[start:stop] = v] for a scalar [v]. *)
Definition setslice_scalar (row : list Q) (start stop : nat) (v : Q)
  : list Q :=
  list_inserts start (replicate (length (slice start stop row)) v) row.

(** The writes [ret[i] = v] done one after the other. *)
Definition scatter {A} (ret : list A) (ivs : list (nat * A)) : list A :=
  foldl (fun acc iv => <[iv.1 := iv.2]> acc) ret ivs.

(** [ret[inds] = vals] (and [ret[inds, :] = vals] on rows of one width):
    the value is broadcast to one item per index and the writes happen in
    index order, so a repeated index keeps the last value written.  The
    order of the two checks is a choice of the model: no statement below
    depends on which of the two errors is raised when both apply. *)
Definition setitem {A} (ret : list A) (inds : list nat) (vals : list A)
  : result (list A) :=
  vals' ← broadcast_to (length inds) vals;
  if forallb (fun i => i <? length ret) inds
  then Ok (scatter ret (zip inds vals'))
  else Raise IndexError.

End np.

Import np.

(** ** The random generator

    [np.random.choice(a, size, replace=False)] draws a permutation of the
    positions of [a] from the generator and returns the entries at its
    first [size] positions; it raises ValueError on a negative size, on an
    empty [a] and on a size larger than [a] ([encode] asks for a negative
    size only under a configuration that is not [valid_flags]).  The
    generator is any state from which a permutation of [0 .. n-1] can be
    drawn. *)

Class RandomState : Type := {
  rng : Type;
  permutation : rng -> nat -> list nat * rng;
  permutation_perm : forall s n, (permutation s n).1 ≡ₚ seq 0 n
}.

Definition choice `{RandomState} (st : rng) (a : list nat) (size : Z)
  : result (list nat * rng) :=
  if (size <? 0)%Z then Raise ValueError
  else if length a =? 0 then Raise ValueError
  else if (Z.of_nat (length a) <? size)%Z then Raise ValueError
  else
    let (p, st') := permutation st (length a) in
    picked ← take_ a (take (Z.to_nat size) p);
    Ok (picked, st').

(** ** Configuration (libs/configs/config_v1.py, [cfg.FLAGS]) *)

Record FLAGS : Type := {
  fg_threshold : Q;
  bg_threshold : Q;
  rois_per_image : Z;
  fg_roi_fraction : Q
}.

(** ** The module *)

Section Roi.

Context `{RS : RandomState}.

(** The configuration and the box routines imported by the module
    (libs/boxes/cython_bbox, libs/boxes/bbox_transform) are parameters. *)
Variable cfg : FLAGS.
Variable bbox_overlaps : matrix -> matrix -> matrix.
Variable bbox_transform : matrix -> matrix -> matrix.
Variable bbox_transform_inv : matrix -> matrix -> matrix.
Variable clip_boxes : matrix -> Q * Q -> matrix.

(** *** [_compute_targets] *)

(** One iteration of [for ind in inds].  [ind] comes from
    [np.where(clss > 0)], so [cls] is not negative and neither are the
    bounds of the slice. *)
Definition expand_row (targets : matrix) (clss : list Q)
    (acc : list (list Q) * list (list Q)) (ind : nat)
  : result (list (list Q) * list (list Q)) :=
  l ← getitem clss ind;
  let cls := py_int l in
  let start := (4 * cls)%Z in
  let end_ := (start + 4)%Z in
  trow ← getitem (rows targets) ind;
  brow ← getitem acc.1 ind;
  brow' ← setslice brow (Z.to_nat start) (Z.to_nat end_) (slice 0 4 trow);
  wrow ← getitem acc.2 ind;
  let wrow' := setslice_scalar wrow (Z.to_nat start) (Z.to_nat end_) 1%Q in
  Ok (<[ind := brow']> acc.1, <[ind := wrow']> acc.2).

Fixpoint expand_rows (targets : matrix) (clss : list Q)
    (acc : list (list Q) * list (list Q)) (inds : list nat)
  : result (list (list Q) * list (list Q)) :=
  match inds with
  | [] => Ok acc
  | ind :: inds' =>
      acc' ← expand_row targets clss acc ind;
      expand_rows targets clss acc' inds'
  end.

Definition _compute_targets (ex_rois gt_rois : matrix) (labels : list Q)
    (num_classes : Z) : result (matrix * matrix) :=
  _ ← py_assert (shape0 ex_rois =? shape0 gt_rois);
  _ ← py_assert (shape1 ex_rois =? 4);
  _ ← py_assert (shape1 gt_rois =? 4);
  let targets := bbox_transform ex_rois gt_rois in
  let clss := labels in
  bbox_targets ← zeros2 (length clss) (4 * num_classes)%Z;
  bbox_inside_weights ← zeros2 (shape0 bbox_targets)
                               (Z.of_nat (shape1 bbox_targets));
  let inds := where_ (map (fun c => Qltb 0 c) clss) in
  r ← expand_rows targets clss
        (rows bbox_targets, rows bbox_inside_weights) inds;
  Ok (Mat (ncols bbox_targets) r.1, Mat (ncols bbox_inside_weights) r.2).

(** *** [_unmap] *)

Definition _unmap (data : ndarray) (count : nat) (inds : list nat)
    (fill : Q) : result ndarray :=
  match data with
  | Arr1 v =>
      let ret := replicate count fill in
      ret' ← setitem ret inds v;
      Ok (Arr1 ret')
  | Arr2 m =>
      let ret := replicate count (replicate (ncols m) fill) in
      ret' ← setitem ret inds (rows m);
      Ok (Arr2 (Mat (ncols m) ret'))
  end.

(** *** [encode] *)

(** Lines 33-39: overlaps, assignment, maximal overlap, raw labels.
    [np.ascontiguousarray] changes the layout only.  [overlaps] has one row
    per proposal, so [np.arange(rois.shape[0])] and [gt_assignment] index it
    pairwise. *)
Definition match_rois (gt_boxes rois : matrix)
  : result (list nat * list Q * list Q) :=
  let overlaps := bbox_overlaps (cols 0 4 rois) (cols 0 4 gt_boxes) in
  gt_assignment ← mapM argmax (rows overlaps);
  max_overlaps ← mapM (fun ri => r ← getitem (rows overlaps) ri.1;
                                 getitem r ri.2)
                      (zip (seq 0 (shape0 rois)) gt_assignment);
  gt_rows ← take_ (rows gt_boxes) gt_assignment;
  labels ← mapM (fun r => getitem r 4) gt_rows;
  Ok (gt_assignment, max_overlaps, labels).

Definition fg_eligible (max_overlaps : list Q) : list nat :=
  where_ (map (fun o => Qle_bool (fg_threshold cfg) o) max_overlaps).

Definition bg_eligible (max_overlaps : list Q) : list nat :=
  where_ (map (fun o => Qltb o (bg_threshold cfg)) max_overlaps).

(** [labels[bg_inds] = 0]. *)
Definition zero_labels (labels : list Q) (bg_inds : list nat)
  : result (list Q) :=
  setitem labels bg_inds [0%Q].

Record sampled : Type := Sampled {
  s_fg_rois : Z;          (* fg_rois *)
  s_bg_rois : Z;          (* bg_rois *)
  s_fg_inds : list nat;   (* fg_inds after the draw *)
  s_bg_inds : list nat;   (* bg_inds after the draw *)
  s_labels : list Q;      (* labels after labels[bg_inds] = 0 *)
  s_rng : rng
}.

(** Lines 42-53: the two draws and the forcing of background labels. *)
Definition sample_rois (st : rng) (max_overlaps labels : list Q)
  : result sampled :=
  let fg_inds := fg_eligible max_overlaps in
  let fg_rois :=
    py_int (py_min (inject_Z (Z.of_nat (length fg_inds)))
                   (inject_Z (rois_per_image cfg) * fg_roi_fraction cfg)%Q) in
  '(fg_inds, st) ←
    (if 0 <? length fg_inds then choice st fg_inds fg_rois
     else Ok (fg_inds, st));
  let bg_rois := (rois_per_image cfg - fg_rois)%Z in
  let bg_inds := bg_eligible max_overlaps in
  labels ← zero_labels labels bg_inds;
  '(bg_inds, st) ←
    (if (0 <? length bg_inds) && (bg_rois <? Z.of_nat (length bg_inds))%Z
     then choice st bg_inds bg_rois
     else Ok (bg_inds, st));
  Ok (Sampled fg_rois bg_rois fg_inds bg_inds labels st).

(** [keep_inds = np.append(fg_inds, bg_inds)]. *)
Definition keep_inds (s : sampled) : list nat := s_fg_inds s ++ s_bg_inds s.

(** [encode]; the last component of the result is the generator after the
    draws. *)

Definition encode (st : rng) (gt_boxes rois : matrix) (num_classes : Z)
  : result (list Q * matrix * ndarray * ndarray * rng) :=
  let all_rois := rois in
  let num_rois := shape0 rois in
  '(gt_assignment, max_overlaps, labels) ← match_rois gt_boxes all_rois;
  s ← sample_rois st max_overlaps labels;
  let labels := s_labels s in
  let keep := keep_inds s in
  ex_rows ← take_ (rows rois) keep;
  kept_assignment ← take_ gt_assignment keep;
  gt_rows ← take_ (rows gt_boxes) kept_assignment;
  '(bbox_targets, bbox_inside_weights) ←
    _compute_targets (cols 0 4 (Mat (ncols rois) ex_rows))
                     (cols 0 4 (Mat (ncols gt_boxes) gt_rows))
                     labels num_classes;
  bbox_targets ← _unmap (Arr2 bbox_targets) num_rois keep 0%Q;
  bbox_inside_weights ← _unmap (Arr2 bbox_inside_weights) num_rois keep 0%Q;
  Ok (labels, rois, bbox_targets, bbox_inside_weights, s_rng s).

(** *** [decode] *)

(** The body of [for i in np.arange(0, boxes.shape[0])]. *)
Definition select_box (boxes : matrix) (classes : list nat) (i : nat)
  : result (list Q) :=
  c ← getitem classes i;
  let ind := c * 4 in
  brow ← getitem (rows boxes) i;
  setslice (replicate 4 0%Q) 0 4 (slice ind (ind + 4) brow).

Definition decode (boxes scores rois : matrix) (ih iw : Q)
  : result (matrix * list nat * list Q) :=
  let boxes := bbox_transform_inv rois boxes in
  classes ← mapM argmax (rows scores);
  scores ← mapM amax (rows scores);
  final_rows ← mapM (select_box boxes classes) (seq 0 (shape0 boxes));
  let final_boxes := clip_boxes (Mat 4 final_rows) (ih, iw) in
  Ok (final_boxes, classes, scores).

End Roi.

(** *** The script under [__main__] (lines 143-146)

    The labels [encode] returned are turned into one-hot scores over three
    classes and decoded again.  The labels of the script are integers (its
    ground truth is an integer array). *)

(** [row[k]] with an integer [k]: a negative [k] counts from the end. *)
Definition py_index (n : nat) (k : Z) : result nat :=
  if (0 <=? k)%Z && (k <? Z.of_nat n)%Z then Ok (Z.to_nat k)
  else if (- Z.of_nat n <=? k)%Z && (k <? 0)%Z
  then Ok (Z.to_nat (Z.of_nat n + k))
  else Raise IndexError.

(** [ls[i, labels[i]] = 1]. *)
Definition mark_label (labels : list Z) (ls : list (list Q)) (i : nat)
  : result (list (list Q)) :=
  l ← getitem labels i;
  row ← getitem ls i;
  c ← py_index (length row) l;
  Ok (<[i := <[c := 1%Q]> row]> ls).

Fixpoint mark_labels (labels : list Z) (ls : list (list Q)) (positions : list nat)
  : result (list (list Q)) :=
  match positions with
  | [] => Ok ls
  | i :: rest => ls' ← mark_label labels ls i; mark_labels labels ls' rest
  end.

(** [ls = np.zeros((labels.shape[0], 3))] and the loop over
    [range(labels.shape[0])]. *)
Definition one_hot (labels : list Z) : result matrix :=
  ls ← zeros2 (length labels) 3;
  rows' ← mark_labels labels (rows ls) (seq 0 (length labels));
  Ok (Mat (ncols ls) rows').

(** [decode(bbox_targets, ls, rois, 100, 100)] on those scores. *)
Definition decode_labels (bbox_transform_inv : matrix -> matrix -> matrix)
    (clip_boxes : matrix -> Q * Q -> matrix) (labels : list Z)
    (bbox_targets rois : matrix) : result (matrix * list nat * list Q) :=
  ls ← one_hot labels;
  decode bbox_transform_inv clip_boxes bbox_targets ls rois 100 100.

(** ** A generator and box routines to run the module on examples *)

Module Sample.

Lemma rotate_seq_perm (s n : nat) : rotate s (seq 0 n) ≡ₚ seq 0 n.
Proof.
  unfold rotate.
  rewrite Permutation_app_comm.
  by rewrite take_drop.
Qed.

(** A seeded generator: the seed rotates the positions and is then
    advanced. *)
Definition seeded : RandomState :=
  {| rng := nat;
     permutation := fun s n => (rotate s (seq 0 n), S s);
     permutation_perm := rotate_seq_perm |}.

(** A scripted generator: it hands out the permutation it was built with
    whenever that is a permutation of the positions asked for. *)
Definition scripted_permutation (p : list nat) (n : nat) : list nat :=
  if decide (p ≡ₚ seq 0 n) then p else seq 0 n.

Lemma scripted_permutation_perm (p : list nat) (n : nat) :
  scripted_permutation p n ≡ₚ seq 0 n.
Proof. unfold scripted_permutation. by case_decide. Qed.

Definition scripted (p : list nat) : RandomState :=
  {| rng := unit;
     permutation := fun s n => (scripted_permutation p n, s);
     permutation_perm := fun _ n => scripted_permutation_perm p n |}.

Definition Qmax2 (a b : Q) : Q := if Qltb a b then b else a.
Definition Qmin2 (a b : Q) : Q := if Qltb b a then b else a.

(** Modelled from the spec: the overlap computation
    (libs/boxes/cython_bbox.bbox_overlaps is not part of the sources):
    intersection over union of two corner boxes, 0 for boxes that are not
    boxes. *)
Definition iou (a b : list Q) : Q :=
  match a, b with
  | [ax1; ay1; ax2; ay2], [bx1; by1; bx2; by2] =>
      let iw := Qmax2 0 (Qmin2 ax2 bx2 - Qmax2 ax1 bx1) in
      let ih := Qmax2 0 (Qmin2 ay2 by2 - Qmax2 ay1 by1) in
      let inter := iw * ih in
      let ua := (ax2 - ax1) * (ay2 - ay1) + (bx2 - bx1) * (by2 - by1) - inter in
      Qred (inter / ua)
  | _, _ => 0
  end%Q.

Definition iou_overlaps (boxes query : matrix) : matrix :=
  Mat (shape0 query) (map (fun b => map (iou b) (rows query)) (rows boxes)).

(** Modelled from the spec: a box-delta encoder and its inverse
    (libs/boxes/bbox_transform is not part of the sources): the
    coordinate-wise offset of the target box from the anchor box, and its
    addition back on every class block. *)
Definition offset_transform (ex_rois gt_rois : matrix) : matrix :=
  Mat 4 (zip_with (zip_with (fun e g => Qred (g - e))) (rows ex_rois) (rows gt_rois)).

Fixpoint add_blocks (roi deltas : list Q) (fuel : nat) : list Q :=
  match fuel with
  | 0 => []
  | S fuel' =>
      zip_with (fun r d => Qred (r + d)) roi (take 4 deltas)
        ++ add_blocks roi (drop 4 deltas) fuel'
  end.

Definition offset_transform_inv (rois deltas : matrix) : matrix :=
  Mat (ncols deltas)
      (zip_with (fun r d => add_blocks r d (ncols deltas / 4))
                (rows rois) (rows deltas)).

(** Modelled from the spec: the box clipper: x coordinates are clamped to
    [0, iw - 1] and y coordinates to [0, ih - 1]. *)
Definition clamp (lo hi x : Q) : Q := Qmax2 lo (Qmin2 hi x).

Definition clamp_box (shape : Q * Q) (b : list Q) : list Q :=
  match b with
  | [x1; y1; x2; y2] =>
      [clamp 0 (shape.2 - 1) x1; clamp 0 (shape.1 - 1) y1;
       clamp 0 (shape.2 - 1) x2; clamp 0 (shape.1 - 1) y2]%Q
  | _ => b
  end.

Definition clamp_boxes (boxes : matrix) (shape : Q * Q) : matrix :=
  Mat (ncols boxes) (map (clamp_box shape) (rows boxes)).

Definition flags (fg bg : Q) (n : Z) (frac : Q) : FLAGS :=
  {| fg_threshold := fg; bg_threshold := bg;
     rois_per_image := n; fg_roi_fraction := frac |}.

(** The thresholds of the scenario of the design document with the usual
    budget of 256 rois, a quarter of them foreground. *)
Definition cfg0 : FLAGS := flags (1 # 2) (1 # 10) 256 (1 # 4).

Definition encode0 := @encode seeded cfg0 iou_overlaps offset_transform.
Definition decode0 := decode offset_transform_inv clamp_boxes.
Definition compute_targets0 := _compute_targets offset_transform.

End Sample.

(** ** Vocabulary of the statements *)

(** [row] has its first maximum [m] at position [j]. *)
Definition first_max (row : list Q) (j : nat) (m : Q) : Prop :=
  row !! j = Some m /\
  (forall k y, row !! k = Some y -> (y <= m)%Q) /\
  (forall k y, k < j -> row !! k = Some y -> (y < m)%Q).

(** Position [k] holds the last occurrence of [j] in [inds]. *)
Definition last_occurrence (inds : list nat) (k j : nat) : Prop :=
  inds !! k = Some j /\ forall k', k < k' -> inds !! k' <> Some j.

(** What the sampling needs of the configuration: a budget that is not
    negative and a foreground fraction between 0 and 1. *)
Definition valid_flags (cfg : FLAGS) : Prop :=
  (0 <= rois_per_image cfg)%Z /\
  (0 <= fg_roi_fraction cfg)%Q /\ (fg_roi_fraction cfg <= 1)%Q.

(** [fg_rois] as [encode] computes it (line 43) from the size of the
    foreground-eligible set. *)
Definition fg_rois_of (cfg : FLAGS) (n : nat) : Z :=
  py_int (py_min (inject_Z (Z.of_nat n))
                 (inject_Z (rois_per_image cfg) * fg_roi_fraction cfg)%Q).

(** The number of items of an array along its first axis. *)
Definition nrows (data : ndarray) : nat :=
  match data with
  | Arr1 v => length v
  | Arr2 m => shape0 m
  end.

(** The row of [w] inside weights of a label: 1 on the four columns of the
    class [int(l)] of a positive label [l], 0 elsewhere. *)
Definition class_mask (w : nat) (l : Q) : list Q :=
  if Qltb 0 l
  then list_inserts (4 * Z.to_nat (py_int l)) (replicate 4 1%Q)
                    (replicate w 0%Q)
  else replicate w 0%Q.


(** * Properties *)

(** ** The error monad *)

Lemma bind_Ok {A B} (m : result A) (f : A -> result B) (b : B) :
  m ≫= f = Ok b <-> exists a, m = Ok a /\ f a = Ok b.
Proof.
  destruct m as [a|e]; simpl; split.
  - intros H. by exists a.
  - by intros (a' & [= ->] & H).
  - done.
  - by intros (a' & [=] & _).
Qed.

Lemma bind_Raise {A B} (m : result A) (f : A -> result B) (e : exn) :
  m ≫= f = Raise e <-> m = Raise e \/ exists a, m = Ok a /\ f a = Raise e.
Proof.
  destruct m as [a|e']; simpl; split.
  - intros H. right. by exists a.
  - intros [[=]|(a' & [= ->] & H)]. done.
  - intros [= ->]. by left.
  - intros [[= ->]|(a' & [=] & _)]. done.
Qed.

(** Inversion of a successful run: every bind that succeeded yields its
    intermediate value. *)
Ltac inv_ok :=
  repeat match goal with
  | H : _ ≫= _ = Ok _ |- _ =>
      apply bind_Ok in H; destruct H as (? & ? & H)
  | H : Ok _ = Ok _ |- _ => injection H as H; subst
  | H : Raise _ = Ok _ |- _ => discriminate H
  | H : (_, _) = (_, _) |- _ => injection H as H; subst
  end.

Lemma py_assert_Ok (b : bool) (u : unit) : py_assert b = Ok u <-> b = true.
Proof. destruct b, u; simpl; split; done. Qed.

(** ** Comparisons and truncation *)

Lemma Qltb_lt (x y : Q) : Qltb x y = true <-> (x < y)%Q.
Proof.
  unfold Qltb. rewrite negb_true_iff.
  split.
  - intros H. apply Qnot_le_lt. intros Hle.
    apply Qle_bool_iff in Hle. congruence.
  - intros H. destruct (Qle_bool y x) eqn:E; [|done].
    apply Qle_bool_iff in E. by apply Qlt_not_le in H.
Qed.

Lemma Qltb_ge (x y : Q) : Qltb x y = false <-> (y <= x)%Q.
Proof.
  unfold Qltb. rewrite negb_false_iff. apply Qle_bool_iff.
Qed.

Lemma py_int_floor (q : Q) : (0 <= q)%Q -> py_int q = Qfloor q.
Proof.
  destruct q as [n d]. unfold Qle, py_int, Qfloor. simpl.
  intros H. apply Z.quot_div_nonneg; lia.
Qed.

Lemma py_int_nonneg (q : Q) : (0 <= q)%Q -> (0 <= py_int q)%Z.
Proof.
  destruct q as [n d]. unfold Qle, py_int. simpl.
  intros H. apply Z.quot_pos; lia.
Qed.

Lemma py_int_inject_Z (z : Z) : py_int (inject_Z z) = z.
Proof. unfold py_int. simpl. apply Z.quot_1_r. Qed.

Lemma py_min_le_l (a b : Q) : (py_min a b <= a)%Q.
Proof.
  unfold py_min. destruct (Qltb b a) eqn:E.
  - apply Qltb_lt in E. by apply Qlt_le_weak.
  - apply Qle_refl.
Qed.

Lemma py_min_le_r (a b : Q) : (py_min a b <= b)%Q.
Proof.
  unfold py_min. destruct (Qltb b a) eqn:E.
  - apply Qle_refl.
  - by apply Qltb_ge in E.
Qed.

Lemma py_min_nonneg (a b : Q) : (0 <= a)%Q -> (0 <= b)%Q -> (0 <= py_min a b)%Q.
Proof. unfold py_min. by destruct (Qltb b a). Qed.

(** ** Indexing *)

Lemma getitem_Ok {A} (l : list A) (i : nat) (x : A) :
  getitem l i = Ok x <-> l !! i = Some x.
Proof. unfold getitem. destruct (l !! i); split; congruence. Qed.

Lemma getitem_Raise {A} (l : list A) (i : nat) (e : exn) :
  getitem l i = Raise e <-> length l <= i /\ e = IndexError.
Proof.
  unfold getitem. destruct (l !! i) eqn:E.
  - apply lookup_lt_Some in E. split; [done|]. intros [? _]. lia.
  - apply lookup_ge_None in E. split; [by intros [= <-]|by intros [_ ->]].
Qed.

Lemma take__Ok {A} (l : list A) (inds : list nat) (xs : list A) :
  take_ l inds = Ok xs <-> Forall2 (fun i x => l !! i = Some x) inds xs.
Proof.
  revert xs. induction inds as [|i inds IH]; intros xs; simpl.
  - split; [intros [= <-]; constructor|by intros ->%Forall2_nil_inv_l].
  - split.
    + intros H. inv_ok. constructor; [by apply getitem_Ok|by apply IH].
    + intros (x & xs' & Hx & Hxs & ->)%Forall2_cons_inv_l.
      apply getitem_Ok in Hx. apply IH in Hxs. by rewrite Hx, Hxs.
Qed.

Lemma take__total {A} (l : list A) (inds : list nat) :
  Forall (fun i => i < length l) inds -> exists xs, take_ l inds = Ok xs.
Proof.
  induction 1 as [|i inds Hi _ [xs IH]]; simpl; [by eexists|].
  destruct (lookup_lt_is_Some_2 l i Hi) as [x Hx].
  apply getitem_Ok in Hx. rewrite Hx, IH. by eexists.
Qed.

Lemma mapM_Ok {A B} (f : A -> result B) (l : list A) (ys : list B) :
  mapM f l = Ok ys <-> Forall2 (fun a b => f a = Ok b) l ys.
Proof.
  revert ys. induction l as [|a l IH]; intros ys; simpl.
  - split; [intros [= <-]; constructor|by intros ->%Forall2_nil_inv_l].
  - split.
    + intros H. inv_ok. constructor; [done|by apply IH].
    + intros (y & ys' & Hy & Hys & ->)%Forall2_cons_inv_l.
      apply IH in Hys. by rewrite Hy, Hys.
Qed.

Lemma mapM_total {A B} (f : A -> result B) (l : list A) :
  Forall (fun a => exists b, f a = Ok b) l -> exists ys, mapM f l = Ok ys.
Proof.
  induction 1 as [|a l [b Hb] _ [ys IH]]; simpl; [by eexists|].
  rewrite Hb, IH. by eexists.
Qed.

(** ** [np.where] *)

Lemma elem_of_where_from (i j : nat) (mask : list bool) :
  j ∈ where_from i mask <-> exists k, j = i + k /\ mask !! k = Some true.
Proof.
  revert i. induction mask as [|b mask IH]; intros i; simpl.
  - split; [by intros ?%elem_of_nil|by intros (k & _ & ?)].
  - assert (j ∈ where_from (S i) mask <->
            exists k, j = i + S k /\ mask !! k = Some true) as IH'.
    { rewrite IH. by setoid_rewrite Nat.add_succ_r. }
    destruct b; rewrite ?elem_of_cons, IH'; split.
    + intros [->|(k & -> & Hk)]; [exists 0|exists (S k)]; split; done || lia.
    + intros ([|k] & -> & Hk); [left; lia|right; by exists k].
    + intros (k & -> & Hk). by exists (S k).
    + intros ([|k] & -> & Hk); [done|by exists k].
Qed.

Lemma elem_of_where (j : nat) (mask : list bool) :
  j ∈ where_ mask <-> mask !! j = Some true.
Proof.
  unfold where_. rewrite elem_of_where_from. split.
  - by intros (k & -> & Hk).
  - intros H. by exists j.
Qed.

Lemma NoDup_where_from (i : nat) (mask : list bool) : NoDup (where_from i mask).
Proof.
  revert i. induction mask as [|b mask IH]; intros i; simpl; [constructor|].
  destruct b; [|done]. constructor; [|done].
  rewrite elem_of_where_from. intros (k & Hk & _). lia.
Qed.

Lemma NoDup_where (mask : list bool) : NoDup (where_ mask).
Proof. apply NoDup_where_from. Qed.

Lemma where_lt (j : nat) (mask : list bool) : j ∈ where_ mask -> j < length mask.
Proof. rewrite elem_of_where. apply lookup_lt_Some. Qed.

Lemma where_length (mask : list bool) : length (where_ mask) <= length mask.
Proof.
  unfold where_. generalize 0.
  induction mask as [|b mask IH]; intros i; simpl; [done|].
  destruct b; simpl; specialize (IH (S i)); lia.
Qed.

(** ** [argmax] and [max]: the first maximum *)

Lemma scan_first_max (xs pre : list Q) (bi : nat) (b : Q) :
  first_max pre bi b ->
  first_max (pre ++ xs) (argmax_from bi b (length pre) xs) (max_from b xs).
Proof.
  revert pre bi b. induction xs as [|x xs IH]; intros pre bi b Hpre; simpl.
  - by rewrite app_nil_r.
  - destruct Hpre as (Hb & Hle & Hlt).
    assert (bi < length pre) as Hbi by by eapply lookup_lt_Some.
    replace (pre ++ x :: xs) with ((pre ++ [x]) ++ xs) by by rewrite <-app_assoc.
    replace (S (length pre)) with (length (pre ++ [x]))
      by (rewrite length_app; simpl; lia).
    destruct (Qltb b x) eqn:E; apply IH; repeat split.
    + rewrite lookup_app_r, Nat.sub_diag; done.
    + apply Qltb_lt in E. intros k y Hk.
      apply lookup_app_Some in Hk as [Hk|[_ Hk]].
      * apply Qlt_le_weak. eapply Qle_lt_trans; [by eapply Hle|done].
      * apply list_lookup_singleton_Some in Hk as [_ <-]. apply Qle_refl.
    + apply Qltb_lt in E. intros k y Hk Hy.
      rewrite lookup_app_l in Hy by done.
      eapply Qle_lt_trans; [by eapply Hle|done].
    + by rewrite lookup_app_l.
    + apply Qltb_ge in E. intros k y Hk.
      apply lookup_app_Some in Hk as [Hk|[_ Hk]]; [by eapply Hle|].
      by apply list_lookup_singleton_Some in Hk as [_ <-].
    + intros k y Hk Hy. rewrite lookup_app_l in Hy by lia. by eapply Hlt.
Qed.

Lemma argmax_amax_first_max (row : list Q) :
  row <> [] ->
  exists j m, argmax row = Ok j /\ amax row = Ok m /\ first_max row j m.
Proof.
  destruct row as [|x xs]; [done|]. intros _.
  eexists _, _. split; [done|]. split; [done|].
  apply (scan_first_max xs [x] 0 x).
  repeat split.
  - intros [|k] y; simpl; [intros [= <-]; apply Qle_refl|done].
  - intros k y Hk. lia.
Qed.

Lemma first_max_lt (row : list Q) (j : nat) (m : Q) :
  first_max row j m -> j < length row.
Proof. intros (H & _). by eapply lookup_lt_Some. Qed.

(** ** Assignment through an index array *)

Lemma broadcast_to_Ok {A} (n : nat) (vals vals' : list A) :
  broadcast_to n vals = Ok vals' ->
  length vals' = n /\
  (length vals = n /\ vals' = vals \/
   length vals <> n /\ exists v, vals = [v] /\ vals' = replicate n v).
Proof.
  unfold broadcast_to. destruct (length vals =? n) eqn:E.
  - apply Nat.eqb_eq in E. intros [= <-]. split; [done|by left].
  - apply Nat.eqb_neq in E. destruct vals as [|v [|??]]; try done.
    intros [= <-]. rewrite length_replicate. split; [done|right; eauto].
Qed.

Lemma broadcast_to_same {A} (vals : list A) :
  broadcast_to (length vals) vals = Ok vals.
Proof. unfold broadcast_to. by rewrite Nat.eqb_refl. Qed.

Lemma length_scatter {A} (ret : list A) (ivs : list (nat * A)) :
  length (scatter ret ivs) = length ret.
Proof.
  unfold scatter. revert ret.
  induction ivs as [|iv ivs IH]; intros ret; simpl; [done|].
  by rewrite IH, length_insert.
Qed.

Lemma scatter_untouched {A} (ret : list A) (ivs : list (nat * A)) (j : nat) :
  j ∉ ivs.*1 -> scatter ret ivs !! j = ret !! j.
Proof.
  unfold scatter. revert ret.
  induction ivs as [|[i v] ivs IH]; intros ret Hj; simpl; [done|].
  rewrite fmap_cons, not_elem_of_cons in Hj. destruct Hj as [Hne Hj].
  rewrite IH by done. by apply list_lookup_insert_ne.
Qed.

Lemma scatter_last_write {A} (ret : list A) (inds : list nat) (vals : list A)
    (k j : nat) :
  length vals = length inds -> j < length ret ->
  last_occurrence inds k j ->
  scatter ret (zip inds vals) !! j = vals !! k.
Proof.
  revert ret vals k.
  induction inds as [|i inds IH]; intros ret vals k Hlen Hj [Hk Hlast];
    [done|].
  destruct vals as [|v vals]; [done|]. simpl in Hlen.
  change (scatter ret (zip (i :: inds) (v :: vals)))
    with (scatter (<[i:=v]> ret) (zip inds vals)).
  destruct k as [|k]; simpl in *.
  - injection Hk as ->.
    rewrite scatter_untouched.
    + by apply list_lookup_insert_eq.
    + rewrite fst_zip by lia.
      intros (k' & Hk')%list_elem_of_lookup_1.
      by apply (Hlast (S k')); [lia|].
  - apply IH; [lia|by rewrite length_insert|].
    split; [done|]. intros k' Hk'. apply (Hlast (S k')). lia.
Qed.

Lemma setitem_Ok {A} (ret : list A) (inds : list nat) (vals r : list A) :
  setitem ret inds vals = Ok r ->
  exists vals', broadcast_to (length inds) vals = Ok vals' /\
    r = scatter ret (zip inds vals') /\
    Forall (fun i => i < length ret) inds.
Proof.
  unfold setitem. intros H. inv_ok.
  destruct (forallb _ inds) eqn:E; [|done].
  injection H as <-. eexists. split; [done|]. split; [done|].
  apply Forall_forall. intros i Hi.
  rewrite forallb_forall in E. apply Nat.ltb_lt, E. by apply list_elem_of_In.
Qed.

Lemma setitem_total {A} (ret : list A) (inds : list nat) (vals : list A) :
  length vals = length inds ->
  Forall (fun i => i < length ret) inds ->
  setitem ret inds vals = Ok (scatter ret (zip inds vals)).
Proof.
  intros Hlen Hin. unfold setitem.
  rewrite <-Hlen, broadcast_to_same. simpl.
  replace (forallb _ inds) with true; [done|].
  symmetry. apply forallb_forall. intros i Hi.
  apply Nat.ltb_lt. rewrite Forall_forall in Hin. by apply Hin, list_elem_of_In.
Qed.

Lemma setitem_length {A} (ret : list A) (inds : list nat) (vals r : list A) :
  setitem ret inds vals = Ok r -> length r = length ret.
Proof. intros (? & _ & -> & _)%setitem_Ok. apply length_scatter. Qed.


(** A written position holds one of the assigned items. *)
Lemma scatter_written {A} (ret : list A) (ivs : list (nat * A)) (j : nat) :
  j < length ret -> j ∈ ivs.*1 ->
  exists v, scatter ret ivs !! j = Some v /\ v ∈ ivs.*2.
Proof.
  unfold scatter. revert ret.
  induction ivs as [|[i v] ivs IH]; intros ret Hlt Hj; simpl.
  - by apply elem_of_nil in Hj.
  - destruct (decide (j ∈ ivs.*1)) as [Hin|Hnin].
    + destruct (IH (<[i:=v]> ret)) as (v' & Hv' & Hin');
        [by rewrite length_insert|done|].
      exists v'. split; [done|]. apply elem_of_cons. by right.
    + apply elem_of_cons in Hj. destruct Hj as [->|Hj]; [|done].
      exists v. split; [|apply elem_of_cons; by left].
      fold (scatter (<[i:=v]> ret) ivs). rewrite scatter_untouched by done.
      by apply list_lookup_insert_eq.
Qed.

(** ** [_unmap] *)



(** ** Slices *)

Lemma length_slice {A} (start stop : nat) (l : list A) :
  length (slice start stop l) = Nat.min (stop - start) (length l - start).
Proof. unfold slice. by rewrite length_take, length_drop. Qed.

Lemma slice_all {A} (n : nat) (l : list A) : length l = n -> slice 0 n l = l.
Proof. intros <-. unfold slice. by rewrite drop_0, Nat.sub_0_r, firstn_all. Qed.

Lemma setslice_length (row : list Q) (start stop : nat) (vals row' : list Q) :
  setslice row start stop vals = Ok row' -> length row' = length row.
Proof. unfold setslice. intros H. inv_ok. apply length_inserts. Qed.

Lemma setslice_scalar_length (row : list Q) (start stop : nat) (v : Q) :
  length (setslice_scalar row start stop v) = length row.
Proof. apply length_inserts. Qed.

Lemma setslice_no_assert (row : list Q) (start stop : nat) (vals : list Q) :
  setslice row start stop vals <> Raise AssertionError.
Proof.
  unfold setslice, broadcast_to.
  destruct (length vals =? _); [done|]. by destruct vals as [|? [|??]].
Qed.

Lemma zeros2_Ok (n : nat) (w : Z) (m : matrix) :
  zeros2 n w = Ok m ->
  (0 <= w)%Z /\ m = Mat (Z.to_nat w) (replicate n (replicate (Z.to_nat w) 0%Q)).
Proof.
  unfold zeros2. destruct (w <? 0)%Z eqn:E; [done|].
  apply Z.ltb_ge in E. by intros [= <-].
Qed.

Lemma zeros2_nonneg (n : nat) (w : Z) :
  (0 <= w)%Z ->
  zeros2 n w = Ok (Mat (Z.to_nat w) (replicate n (replicate (Z.to_nat w) 0%Q))).
Proof. intros H. unfold zeros2. by replace (w <? 0)%Z with false by lia. Qed.

(** ** [_compute_targets] *)

Section ComputeTargets.

Variable bbox_transform : matrix -> matrix -> matrix.

Lemma expand_row_shape (targets : matrix) (clss : list Q)
    (acc acc' : list (list Q) * list (list Q)) (ind w : nat) :
  expand_row targets clss acc ind = Ok acc' ->
  (length acc'.1 = length acc.1 /\ length acc'.2 = length acc.2) /\
  (Forall (fun r => length r = w) acc.1 -> Forall (fun r => length r = w) acc'.1) /\
  (Forall (fun r => length r = w) acc.2 -> Forall (fun r => length r = w) acc'.2).
Proof.
  unfold expand_row. intros H. inv_ok. simpl.
  rewrite !length_insert. split; [done|].
  match goal with
  | H1 : getitem acc.1 _ = _, H2 : getitem acc.2 _ = _, H3 : setslice _ _ _ _ = _
    |- _ => apply getitem_Ok in H1, H2; apply setslice_length in H3
  end.
  split; intros Hw; apply Forall_insert; try done.
  - eapply Forall_lookup_1 in Hw; [|done]. simpl in Hw. congruence.
  - eapply Forall_lookup_1 in Hw; [|done]. simpl in Hw.
    by rewrite setslice_scalar_length.
Qed.

Lemma expand_rows_shape (targets : matrix) (clss : list Q) (inds : list nat)
    (acc acc' : list (list Q) * list (list Q)) (w : nat) :
  expand_rows targets clss acc inds = Ok acc' ->
  (length acc'.1 = length acc.1 /\ length acc'.2 = length acc.2) /\
  (Forall (fun r => length r = w) acc.1 -> Forall (fun r => length r = w) acc'.1) /\
  (Forall (fun r => length r = w) acc.2 -> Forall (fun r => length r = w) acc'.2).
Proof.
  revert acc. induction inds as [|ind inds IH]; intros acc H; simpl in H.
  - by injection H as <-.
  - inv_ok.
    match goal with
    | H1 : expand_row _ _ _ _ = Ok ?a |- _ =>
        apply (expand_row_shape _ _ _ _ _ w) in H1 as ([? ?] & ? & ?)
    end.
    apply IH in H as ([? ?] & ? & ?).
    split; [split; congruence|]. split; auto.
Qed.

Lemma expand_row_no_assert (targets : matrix) (clss : list Q)
    (acc : list (list Q) * list (list Q)) (ind : nat) :
  expand_row targets clss acc ind <> Raise AssertionError.
Proof.
  unfold expand_row. intros H.
  repeat match goal with
  | H : _ ≫= _ = Raise _ |- _ =>
      apply bind_Raise in H as [H|(? & ? & H)]
  | H : getitem _ _ = Raise _ |- _ => by apply getitem_Raise in H as [_ ?]
  | H : setslice _ _ _ _ = Raise _ |- _ => by apply setslice_no_assert in H
  end.
  done.
Qed.

Lemma expand_rows_no_assert (targets : matrix) (clss : list Q)
    (inds : list nat) (acc : list (list Q) * list (list Q)) :
  expand_rows targets clss acc inds <> Raise AssertionError.
Proof.
  revert acc. induction inds as [|ind inds IH]; intros acc; simpl; [done|].
  intros [H|(acc' & _ & H)]%bind_Raise.
  - by apply expand_row_no_assert in H.
  - by apply IH in H.
Qed.

(** The arrays [_compute_targets] returns are the two zero arrays after
    the loop over the positive labels. *)
Lemma compute_targets_Ok (ex_rois gt_rois : matrix) (labels : list Q)
    (num_classes : Z) (bbox_targets bbox_inside_weights : matrix) :
  _compute_targets bbox_transform ex_rois gt_rois labels num_classes
    = Ok (bbox_targets, bbox_inside_weights) ->
  (0 <= 4 * num_classes)%Z /\
  exists acc,
    expand_rows (bbox_transform ex_rois gt_rois) labels
      (replicate (length labels) (replicate (Z.to_nat (4 * num_classes)) 0%Q),
       replicate (length labels) (replicate (Z.to_nat (4 * num_classes)) 0%Q))
      (where_ (map (fun c => Qltb 0 c) labels)) = Ok acc /\
    bbox_targets = Mat (Z.to_nat (4 * num_classes)) acc.1 /\
    bbox_inside_weights = Mat (Z.to_nat (4 * num_classes)) acc.2.
Proof.
  unfold _compute_targets. intros H.
  apply bind_Ok in H as (_ & _ & H). apply bind_Ok in H as (_ & _ & H).
  apply bind_Ok in H as (_ & _ & H).
  apply bind_Ok in H as (T0 & [Hnc ->]%zeros2_Ok & H).
  apply bind_Ok in H as (W0 & [_ ->]%zeros2_Ok & H).
  apply bind_Ok in H as (acc & Hrun & H).
  injection H as <- <-. split; [done|]. exists acc.
  unfold shape0, shape1 in *. cbn [rows ncols] in *.
  rewrite Nat2Z.id, length_replicate in Hrun. by rewrite Nat2Z.id.
Qed.

Lemma compute_targets_dims (ex_rois gt_rois : matrix) (labels : list Q)
    (num_classes : Z) (bbox_targets bbox_inside_weights : matrix) :
  _compute_targets bbox_transform ex_rois gt_rois labels num_classes
    = Ok (bbox_targets, bbox_inside_weights) ->
  shape0 bbox_targets = length labels /\
  shape0 bbox_inside_weights = length labels /\
  ncols bbox_targets = Z.to_nat (4 * num_classes) /\
  ncols bbox_inside_weights = Z.to_nat (4 * num_classes).
Proof.
  intros (_ & acc & Hrun & -> & ->)%compute_targets_Ok.
  apply (expand_rows_shape _ _ _ _ _ 0) in Hrun as ([Hl1 Hl2] & _).
  unfold shape0. simpl in *. by rewrite length_replicate in Hl1, Hl2.
Qed.

(** C3: when [_compute_targets] returns, both arrays have [len(labels)]
    rows and [4 * num_classes] columns, whatever the number of rows of the
    matched boxes. *)
Theorem compute_targets_shape (ex_rois gt_rois : matrix) (labels : list Q)
    (num_classes : Z) (bbox_targets bbox_inside_weights : matrix) :
  _compute_targets bbox_transform ex_rois gt_rois labels num_classes
    = Ok (bbox_targets, bbox_inside_weights) ->
  shape0 bbox_targets = length labels /\
  Z.of_nat (shape1 bbox_targets) = (4 * num_classes)%Z /\
  shape0 bbox_inside_weights = length labels /\
  Z.of_nat (shape1 bbox_inside_weights) = (4 * num_classes)%Z /\
  wf bbox_targets /\ wf bbox_inside_weights.
Proof.
  intros H. pose proof (compute_targets_dims _ _ _ _ _ _ H) as (HT & HW & _).
  apply compute_targets_Ok in H as (Hnc & acc & Hrun & -> & ->).
  apply (expand_rows_shape _ _ _ _ _ (Z.to_nat (4 * num_classes))) in Hrun
    as (_ & Hw1 & Hw2).
  unfold shape1, wf. simpl in *.
  repeat split; try done; try lia.
  - apply Hw1, Forall_replicate, length_replicate.
  - apply Hw2, Forall_replicate, length_replicate.
Qed.

(** The assertions of [_compute_targets] look at the two box arrays only. *)
Lemma compute_targets_assert_iff (ex_rois gt_rois : matrix) (labels : list Q)
    (num_classes : Z) :
  _compute_targets bbox_transform ex_rois gt_rois labels num_classes
    = Raise AssertionError <->
  ~ (shape0 ex_rois = shape0 gt_rois /\ shape1 ex_rois = 4 /\ shape1 gt_rois = 4).
Proof.
  unfold _compute_targets, py_assert.
  destruct (shape0 ex_rois =? shape0 gt_rois) eqn:E0;
    [apply Nat.eqb_eq in E0|apply Nat.eqb_neq in E0; simpl; split; [tauto|done]].
  destruct (shape1 ex_rois =? 4) eqn:E1;
    [apply Nat.eqb_eq in E1|apply Nat.eqb_neq in E1; simpl; split; [tauto|done]].
  destruct (shape1 gt_rois =? 4) eqn:E2;
    [apply Nat.eqb_eq in E2|apply Nat.eqb_neq in E2; simpl; split; [tauto|done]].
  simpl. split; [|tauto]. intros H. exfalso.
  unfold zeros2 in H.
  destruct (4 * num_classes <? 0)%Z; [done|]. simpl in H.
  destruct (Z.of_nat _ <? 0)%Z; [done|]. simpl in H.
  apply bind_Raise in H as [H|(? & _ & H)]; [|done].
  by apply expand_rows_no_assert in H.
Qed.

(** C2 (amended): a mismatch between the row counts of the matched
    proposals and of the matched ground-truth boxes is rejected by the
    assertion, whatever the labels are; the length of [labels] is not
    asserted: with box arrays of equal row count and four columns no call
    fails an assertion, whatever the length of [labels]. *)
Theorem compute_targets_assertion (ex_rois gt_rois : matrix) (labels : list Q)
    (num_classes : Z) :
  (shape0 ex_rois <> shape0 gt_rois ->
   _compute_targets bbox_transform ex_rois gt_rois labels num_classes
     = Raise AssertionError) /\
  (shape0 ex_rois = shape0 gt_rois -> shape1 ex_rois = 4 -> shape1 gt_rois = 4 ->
   _compute_targets bbox_transform ex_rois gt_rois labels num_classes
     <> Raise AssertionError).
Proof.
  split.
  - intros H. apply compute_targets_assert_iff. tauto.
  - intros H0 H1 H2 H. apply compute_targets_assert_iff in H. tauto.
Qed.

Lemma expand_row_ok (targets : matrix) (clss : list Q)
    (acc : list (list Q) * list (list Q)) (ind w : nat)
    (l : Q) (trow brow wrow : list Q) :
  clss !! ind = Some l -> (0 <= py_int l)%Z ->
  4 * Z.to_nat (py_int l) + 4 <= w ->
  rows targets !! ind = Some trow -> length trow = 4 ->
  acc.1 !! ind = Some brow -> length brow = w ->
  acc.2 !! ind = Some wrow -> length wrow = w ->
  expand_row targets clss acc ind
  = Ok (<[ind := list_inserts (4 * Z.to_nat (py_int l)) trow brow]> acc.1,
        <[ind := list_inserts (4 * Z.to_nat (py_int l)) (replicate 4 1%Q) wrow]>
          acc.2).
Proof.
  intros Hl Hc Hfit Ht Htl Hb Hbl Hw Hwl. unfold expand_row.
  apply getitem_Ok in Hl, Ht, Hb, Hw.
  rewrite Hl. cbn [mbind result_bind].
  rewrite Ht. cbn [mbind result_bind]. rewrite Hb. cbn [mbind result_bind].
  replace (Z.to_nat (4 * py_int l)) with (4 * Z.to_nat (py_int l)) by lia.
  replace (Z.to_nat (4 * py_int l + 4)) with (4 * Z.to_nat (py_int l) + 4) by lia.
  unfold setslice, setslice_scalar.
  rewrite (slice_all 4 trow) by done.
  rewrite !length_slice.
  replace (Nat.min _ (length brow - _)) with (length trow) by lia.
  rewrite broadcast_to_same. cbn [mbind result_bind].
  rewrite Hw. cbn [mbind result_bind]. rewrite length_slice.
  by replace (Nat.min _ (length wrow - _)) with 4 by lia.
Qed.

Lemma expand_rows_spec (targets : matrix) (clss : list Q) (w : nat)
    (inds : list nat) (acc : list (list Q) * list (list Q)) :
  NoDup inds ->
  (forall ind, ind ∈ inds ->
     exists l trow brow wrow,
       clss !! ind = Some l /\ (0 <= py_int l)%Z /\
       4 * Z.to_nat (py_int l) + 4 <= w /\
       rows targets !! ind = Some trow /\ length trow = 4 /\
       acc.1 !! ind = Some brow /\ length brow = w /\
       acc.2 !! ind = Some wrow /\ length wrow = w) ->
  exists acc', expand_rows targets clss acc inds = Ok acc' /\
    forall i,
      (i ∉ inds -> acc'.1 !! i = acc.1 !! i /\ acc'.2 !! i = acc.2 !! i) /\
      (i ∈ inds -> forall l trow brow wrow,
         clss !! i = Some l -> rows targets !! i = Some trow ->
         acc.1 !! i = Some brow -> acc.2 !! i = Some wrow ->
         acc'.1 !! i
           = Some (list_inserts (4 * Z.to_nat (py_int l)) trow brow) /\
         acc'.2 !! i
           = Some (list_inserts (4 * Z.to_nat (py_int l)) (replicate 4 1%Q) wrow)).
Proof.
  revert acc. induction inds as [|ind inds IH]; intros acc Hnd Hpre; simpl.
  - eexists. split; [done|]. intros i. split; [done|].
    by intros ?%elem_of_nil.
  - apply NoDup_cons in Hnd as [Hnin Hnd].
    destruct (Hpre ind) as (l & trow & brow & wrow & Hl & Hc & Hfit & Ht & Htl
                             & Hb & Hbl & Hw & Hwl); [by left|].
    rewrite (expand_row_ok _ _ _ _ w l trow brow wrow) by done. simpl.
    set (acc1 := (<[ind:=_]> acc.1, <[ind:=_]> acc.2)).
    destruct (IH acc1 Hnd) as (acc' & Hrun & Hacc').
    { intros i Hi. assert (ind <> i) as Hne by by intros ->.
      destruct (Hpre i) as (l' & trow' & brow' & wrow' & ?); [by right|].
      exists l', trow', brow', wrow'. unfold acc1. simpl.
      by rewrite !list_lookup_insert_ne by done. }
    exists acc'. split; [done|]. intros i. split.
    + intros [Hne Hi]%not_elem_of_cons.
      destruct (proj1 (Hacc' i) Hi) as [-> ->]. unfold acc1. simpl.
      by rewrite !list_lookup_insert_ne by done.
    + intros Hi l' trow' brow' wrow' Hl' Ht' Hb' Hw'.
      destruct (decide (i = ind)) as [->|Hne].
      * destruct (proj1 (Hacc' ind) Hnin) as [-> ->]. unfold acc1. simpl.
        rewrite !list_lookup_insert_eq by by eapply lookup_lt_Some.
        by simplify_eq.
      * apply elem_of_cons in Hi as [?|Hi]; [done|].
        apply (proj2 (Hacc' i) Hi); try done; unfold acc1; simpl;
          by rewrite list_lookup_insert_ne by done.
Qed.


End ComputeTargets.

(** C3 at a call whose labels outnumber the matched boxes. *)
Lemma compute_targets_shape_witness :
  exists bbox_targets bbox_inside_weights,
    Sample.compute_targets0 (Mat 4 [[10; 10; 50; 50]]%Q)
      (Mat 4 [[12; 12; 48; 52]]%Q) [1; 0]%Q 2
      = Ok (bbox_targets, bbox_inside_weights) /\
    shape0 bbox_targets = 2 /\ Z.of_nat (shape1 bbox_targets) = 8%Z /\
    shape0 bbox_inside_weights = 2 /\
    Z.of_nat (shape1 bbox_inside_weights) = 8%Z /\
    wf bbox_targets /\ wf bbox_inside_weights.
Proof.
  eexists _, _. split; [reflexivity|].
  apply (compute_targets_shape Sample.offset_transform
           (Mat 4 [[10; 10; 50; 50]]%Q) (Mat 4 [[12; 12; 48; 52]]%Q)
           [1; 0]%Q 2).
  reflexivity.
Defined.

(** C2 as stated fails: with one matched proposal and one matched
    ground-truth box, two labels give a result, no label gives a result, and
    two labels of which the second is positive raise an index error; none
    fails an assertion. *)
Lemma compute_targets_labels_not_asserted :
  Sample.compute_targets0 (Mat 4 [[10; 10; 50; 50]]%Q)
    (Mat 4 [[12; 12; 48; 52]]%Q) [1; 0]%Q 2
    = Ok (Mat 8 [[0; 0; 0; 0; 2; 2; -2; 2]; [0; 0; 0; 0; 0; 0; 0; 0]]%Q,
          Mat 8 [[0; 0; 0; 0; 1; 1; 1; 1]; [0; 0; 0; 0; 0; 0; 0; 0]]%Q) /\
  Sample.compute_targets0 (Mat 4 [[10; 10; 50; 50]]%Q)
    (Mat 4 [[12; 12; 48; 52]]%Q) [] 2
    = Ok (Mat 8 [], Mat 8 []) /\
  Sample.compute_targets0 (Mat 4 [[10; 10; 50; 50]]%Q)
    (Mat 4 [[12; 12; 48; 52]]%Q) [0; 1]%Q 2
    = Raise IndexError.
Proof. repeat split; reflexivity. Qed.

Lemma compute_targets_assertion_witness :
  Sample.compute_targets0 (Mat 4 [[10; 10; 50; 50]; [0; 0; 5; 5]]%Q)
    (Mat 4 [[12; 12; 48; 52]]%Q) [1; 0]%Q 2
    = Raise AssertionError /\
  Sample.compute_targets0 (Mat 4 [[10; 10; 50; 50]]%Q)
    (Mat 4 [[12; 12; 48; 52]]%Q) [0; 1]%Q 2
    <> Raise AssertionError.
Proof.
  split.
  - apply (compute_targets_assertion Sample.offset_transform
             (Mat 4 [[10; 10; 50; 50]; [0; 0; 5; 5]]%Q)
             (Mat 4 [[12; 12; 48; 52]]%Q) [1; 0]%Q 2).
    intros H. discriminate H.
  - apply (compute_targets_assertion Sample.offset_transform
             (Mat 4 [[10; 10; 50; 50]]%Q)
             (Mat 4 [[12; 12; 48; 52]]%Q) [0; 1]%Q 2); reflexivity.
Defined.


(** ** [decode] *)

Lemma list_inserts_full {A} (k l : list A) :
  length k = length l -> list_inserts 0 k l = k.
Proof.
  intros Hlen. apply list_eq. intros j.
  destruct (decide (j < length l)).
  - rewrite list_lookup_inserts by lia. by rewrite Nat.sub_0_r.
  - rewrite list_lookup_inserts_ge by lia.
    by rewrite !lookup_ge_None_2 by lia.
Qed.

Lemma select_box_ok (decoded : matrix) (classes : list nat) (i c : nat)
    (drow : list Q) :
  classes !! i = Some c -> rows decoded !! i = Some drow ->
  c * 4 + 4 <= length drow ->
  select_box decoded classes i = Ok (slice (c * 4) (c * 4 + 4) drow).
Proof.
  intros Hc Hd Hfit. unfold select_box.
  apply getitem_Ok in Hc, Hd.
  rewrite Hc. cbn [mbind result_bind]. rewrite Hd. cbn [mbind result_bind].
  unfold setslice.
  assert (length (slice (c * 4) (c * 4 + 4) drow) = 4) as Hlen
    by (rewrite length_slice; lia).
  rewrite (slice_all 4 (replicate 4 0%Q)) by done.
  replace (length (replicate 4 0%Q)) with
    (length (slice (c * 4) (c * 4 + 4) drow)) by by rewrite Hlen.
  rewrite broadcast_to_same. cbn [mbind result_bind].
  by rewrite list_inserts_full by by rewrite Hlen.
Qed.

Section Decode.

Variable bbox_transform_inv : matrix -> matrix -> matrix.
Variable clip_boxes : matrix -> Q * Q -> matrix.

(** C9: on scores of shape R x K (K > 0) and decoded boxes of shape
    R x 4K, [decode] returns; for every proposal [i] the class is the
    position of the first maximum of its row of scores, the confidence is
    that maximum, and the final boxes are the box clipper applied to the
    array whose row [i] is the slice [4c, 4c + 4) of the decoded boxes of
    proposal [i], [c] being its class: no other column of the decoded boxes
    reaches the result. *)
Theorem decode_spec (boxes scores rois : matrix) (ih iw : Q) :
  shape0 (bbox_transform_inv rois boxes) = shape0 scores ->
  Forall (fun r => length r = 4 * shape1 scores)
         (rows (bbox_transform_inv rois boxes)) ->
  wf scores -> 0 < shape1 scores ->
  exists selected classes confidence,
    decode bbox_transform_inv clip_boxes boxes scores rois ih iw
      = Ok (clip_boxes (Mat 4 selected) (ih, iw), classes, confidence) /\
    length selected = shape0 scores /\
    length classes = shape0 scores /\
    length confidence = shape0 scores /\
    forall i srow, rows scores !! i = Some srow ->
      exists c m drow,
        classes !! i = Some c /\ confidence !! i = Some m /\
        first_max srow c m /\
        rows (bbox_transform_inv rois boxes) !! i = Some drow /\
        selected !! i = Some (slice (c * 4) (c * 4 + 4) drow) /\
        length (slice (c * 4) (c * 4 + 4) drow) = 4.
Proof.
  intros Hrows Hwidth Hwf Hk.
  set (decoded := bbox_transform_inv rois boxes) in *.
  unfold shape0, shape1, wf in *.
  assert (Forall (fun r => exists j m,
            argmax r = Ok j /\ amax r = Ok m /\ first_max r j m) (rows scores))
    as Hmax.
  { eapply Forall_impl; [exact Hwf|]. intros r Hr. simpl in Hr.
    apply argmax_amax_first_max. intros ->. simpl in Hr. lia. }
  destruct (mapM_total argmax (rows scores)) as [classes Hcl].
  { eapply Forall_impl; [exact Hmax|]. intros r (j & m & ? & _). eauto. }
  destruct (mapM_total amax (rows scores)) as [conf Hconf].
  { eapply Forall_impl; [exact Hmax|]. intros r (j & m & _ & ? & _). eauto. }
  pose proof (proj1 (mapM_Ok _ _ _) Hcl) as Hcl2.
  pose proof (proj1 (mapM_Ok _ _ _) Hconf) as Hconf2.
  assert (forall i srow, rows scores !! i = Some srow ->
            exists c m drow, classes !! i = Some c /\ conf !! i = Some m /\
              first_max srow c m /\ rows decoded !! i = Some drow /\
              c * 4 + 4 <= length drow) as Hrow.
  { intros i srow Hs.
    destruct (Forall2_lookup_l _ _ _ _ _ Hcl2 Hs) as (c & Hc & Hc').
    destruct (Forall2_lookup_l _ _ _ _ _ Hconf2 Hs) as (m & Hm & Hm').
    destruct (Forall_lookup_1 _ _ _ _ Hmax Hs) as (c' & m' & ? & ? & Hfm).
    assert (c' = c) as -> by congruence. assert (m' = m) as -> by congruence.
    destruct (lookup_lt_is_Some_2 (rows decoded) i) as [drow Hd].
    { apply lookup_lt_Some in Hs. lia. }
    exists c, m, drow. repeat split; try done; try apply Hfm.
    apply first_max_lt in Hfm.
    rewrite (Forall_lookup_1 _ _ _ _ Hwidth Hd).
    rewrite (Forall_lookup_1 _ _ _ _ Hwf Hs) in Hfm. lia. }
  destruct (mapM_total (select_box decoded classes)
              (seq 0 (length (rows decoded)))) as [sel Hsel].
  { apply Forall_forall. intros i [_ Hi]%elem_of_seq. simpl in Hi.
    destruct (lookup_lt_is_Some_2 (rows scores) i) as [srow Hs]; [lia|].
    destruct (Hrow i srow Hs) as (c & m & drow & Hc & _ & _ & Hd & Hfit).
    eexists. by apply select_box_ok. }
  pose proof (proj1 (mapM_Ok _ _ _) Hsel) as Hsel2.
  exists sel, classes, conf. split.
  { unfold decode. fold decoded. rewrite Hcl. cbn [mbind result_bind].
    rewrite Hconf. cbn [mbind result_bind]. unfold shape0.
    by rewrite Hsel. }
  split. { apply Forall2_length in Hsel2. rewrite length_seq in Hsel2. lia. }
  split. { by apply Forall2_length in Hcl2. }
  split. { by apply Forall2_length in Hconf2. }
  intros i srow Hs.
  destruct (Hrow i srow Hs) as (c & m & drow & Hc & Hm & Hfm & Hd & Hfit).
  exists c, m, drow. repeat split; try done; try apply Hfm.
  - assert (seq 0 (length (rows decoded)) !! i = Some i) as Hi.
    { apply lookup_seq. split; [done|]. apply lookup_lt_Some in Hd. lia. }
    destruct (Forall2_lookup_l _ _ _ _ _ Hsel2 Hi) as (b & Hb & Hb').
    rewrite (select_box_ok decoded classes i c drow) in Hb' by done.
    by injection Hb' as <-.
  - rewrite length_slice. lia.
Qed.

End Decode.

(** C9 on the scenario of the design document: one proposal, scores
    [0.1, 0.9], null deltas, a 100 x 100 image. *)
Lemma decode_spec_witness :
  exists selected classes confidence,
    Sample.decode0 (Mat 8 [[0; 0; 0; 0; 0; 0; 0; 0]]%Q)
      (Mat 2 [[1 # 10; 9 # 10]]) (Mat 4 [[10; 10; 50; 50]]%Q) 100 100
      = Ok (Sample.clamp_boxes (Mat 4 selected) (100, 100)%Q,
            classes, confidence) /\
    length selected = 1 /\ classes = [1] /\ confidence = [9 # 10].
Proof.
  destruct (decode_spec Sample.offset_transform_inv Sample.clamp_boxes
              (Mat 8 [[0; 0; 0; 0; 0; 0; 0; 0]]%Q)
              (Mat 2 [[1 # 10; 9 # 10]]) (Mat 4 [[10; 10; 50; 50]]%Q) 100 100)
    as (sel & classes & conf & Hrun & Hn & _ & _ & _).
  - reflexivity.
  - repeat constructor.
  - repeat constructor.
  - unfold shape1. simpl. lia.
  - exists sel, classes, conf. split; [exact Hrun|]. split; [exact Hn|].
    pose proof (eq_refl :
      Sample.decode0 (Mat 8 [[0; 0; 0; 0; 0; 0; 0; 0]]%Q)
        (Mat 2 [[1 # 10; 9 # 10]]) (Mat 4 [[10; 10; 50; 50]]%Q) 100 100
      = Ok (Mat 4 [[10; 10; 50; 50]]%Q, [1], [9 # 10])) as Hval.
    unfold Sample.decode0 in Hval. rewrite Hrun in Hval.
    injection Hval as _ -> ->. done.
Defined.

(** ** The sampling of [encode] *)

Section Sampling.

Context `{RS : RandomState}.
Variable cfg : FLAGS.

Lemma choice_Ok (st st' : rng) (a picked : list nat) (size : Z) :
  choice st a size = Ok (picked, st') ->
  (0 <= size <= Z.of_nat (length a))%Z /\
  length picked = Z.to_nat size /\
  (forall x, x ∈ picked -> x ∈ a) /\
  (NoDup a -> NoDup picked).
Proof.
  unfold choice.
  destruct (size <? 0)%Z eqn:E1; [done|]. apply Z.ltb_ge in E1.
  destruct (length a =? 0) eqn:E2; [done|].
  destruct (Z.of_nat (length a) <? size)%Z eqn:E3; [done|].
  apply Z.ltb_ge in E3.
  pose proof (permutation_perm st (length a)) as Hperm.
  destruct (permutation st (length a)) as [p st1]. simpl in Hperm.
  intros H. inv_ok.
  match goal with H : take_ _ _ = Ok _ |- _ => apply take__Ok in H; rename H into Hp end.
  split; [lia|]. split; [|split].
  - apply Forall2_length in Hp. rewrite <-Hp, length_take.
    apply Permutation_length in Hperm. rewrite length_seq in Hperm. lia.
  - intros x (k & Hk)%list_elem_of_lookup_1.
    destruct (Forall2_lookup_r _ _ _ _ _ Hp Hk) as (i & _ & Hi).
    by eapply list_elem_of_lookup_2.
  - intros Hnd. apply NoDup_alt. intros i j x Hi Hj.
    destruct (Forall2_lookup_r _ _ _ _ _ Hp Hi) as (i' & Hi' & Hai).
    destruct (Forall2_lookup_r _ _ _ _ _ Hp Hj) as (j' & Hj' & Haj).
    assert (i' = j') as -> by by eapply (proj1 (NoDup_alt a) Hnd).
    assert (NoDup (take (Z.to_nat size) p)) as Hndp.
    { apply (sublist_NoDup _ p); [|apply sublist_take].
      rewrite Hperm. apply NoDup_seq. }
    by eapply (proj1 (NoDup_alt _) Hndp).
Qed.

Lemma choice_total (st : rng) (a : list nat) (size : Z) :
  a <> [] -> (0 <= size <= Z.of_nat (length a))%Z ->
  exists picked st', choice st a size = Ok (picked, st').
Proof.
  intros Ha Hsize. unfold choice.
  replace (size <? 0)%Z with false by lia.
  replace (length a =? 0) with false
    by (symmetry; apply Nat.eqb_neq; by destruct a).
  replace (Z.of_nat (length a) <? size)%Z with false by lia.
  pose proof (permutation_perm st (length a)) as Hperm.
  destruct (permutation st (length a)) as [p st1]. simpl in Hperm.
  destruct (take__total a (take (Z.to_nat size) p)) as [picked Hp].
  { apply Forall_forall. intros i Hi%subseteq_take.
    rewrite Hperm in Hi. apply elem_of_seq in Hi. lia. }
  rewrite Hp. by eexists _, _.
Qed.

Lemma budget_nonneg :
  (0 <= rois_per_image cfg)%Z -> (0 <= fg_roi_fraction cfg)%Q ->
  (0 <= inject_Z (rois_per_image cfg) * fg_roi_fraction cfg)%Q.
Proof.
  intros H1 H2. apply Qmult_le_0_compat; [|done].
  change 0%Q with (inject_Z 0). by rewrite <-Zle_Qle.
Qed.

Lemma fg_rois_of_bounds (n : nat) :
  (0 <= rois_per_image cfg)%Z -> (0 <= fg_roi_fraction cfg)%Q ->
  (0 <= fg_rois_of cfg n <= Z.of_nat n)%Z /\
  (fg_rois_of cfg n
   <= Qfloor (inject_Z (rois_per_image cfg) * fg_roi_fraction cfg))%Z.
Proof.
  intros H1 H2. pose proof (budget_nonneg H1 H2) as Hb.
  assert (0 <= inject_Z (Z.of_nat n))%Q as Hn.
  { change 0%Q with (inject_Z 0). rewrite <-Zle_Qle. lia. }
  unfold fg_rois_of.
  rewrite py_int_floor by by apply py_min_nonneg.
  repeat split.
  - change 0%Z with (Qfloor 0). apply Qfloor_resp_le. by apply py_min_nonneg.
  - rewrite <-(Qfloor_Z (Z.of_nat n)) at 2.
    apply Qfloor_resp_le, py_min_le_l.
  - apply Qfloor_resp_le, py_min_le_r.
Qed.

Lemma fg_rois_of_le_budget (n : nat) :
  valid_flags cfg -> (fg_rois_of cfg n <= rois_per_image cfg)%Z.
Proof.
  intros (H1 & H2 & H3).
  destruct (fg_rois_of_bounds n H1 H2) as [_ H]. etrans; [exact H|].
  rewrite <-(Qfloor_Z (rois_per_image cfg)) at 2.
  apply Qfloor_resp_le.
  rewrite <-(Qmult_1_r (inject_Z (rois_per_image cfg))) at 2.
  rewrite !(Qmult_comm (inject_Z (rois_per_image cfg))).
  apply Qmult_le_compat_r; [done|].
  change 0%Q with (inject_Z 0). by rewrite <-Zle_Qle.
Qed.

Lemma broadcast_scalar {A} (n : nat) (v : A) :
  broadcast_to n [v] = Ok (replicate n v).
Proof.
  unfold broadcast_to. destruct (length [v] =? n) eqn:E; [|done].
  by apply Nat.eqb_eq in E as <-.
Qed.

Lemma zero_labels_spec (labels : list Q) (bg_inds : list nat) :
  Forall (fun i => i < length labels) bg_inds ->
  exists labels', zero_labels labels bg_inds = Ok labels' /\
    length labels' = length labels /\
    forall i,
      (i ∈ bg_inds -> labels' !! i = Some 0%Q) /\
      (i ∉ bg_inds -> labels' !! i = labels !! i).
Proof.
  intros Hin. unfold zero_labels, setitem.
  rewrite broadcast_scalar. cbn [mbind result_bind].
  replace (forallb _ bg_inds) with true.
  2:{ symmetry. apply forallb_forall. intros i Hi. apply Nat.ltb_lt.
      rewrite Forall_forall in Hin. by apply Hin, list_elem_of_In. }
  eexists. split; [done|]. split; [apply length_scatter|].
  intros i. split.
  - intros Hi.
    destruct (scatter_written labels
                (zip bg_inds (replicate (length bg_inds) 0%Q)) i)
      as (v & Hv & Hel).
    { rewrite Forall_forall in Hin. by apply Hin. }
    { by rewrite fst_zip by by rewrite length_replicate. }
    rewrite snd_zip in Hel by by rewrite length_replicate.
    by apply elem_of_replicate in Hel as [-> _].
  - intros Hi. apply scatter_untouched.
    by rewrite fst_zip by by rewrite length_replicate.
Qed.

Lemma fg_eligible_lt (mo : list Q) (i : nat) :
  i ∈ fg_eligible cfg mo -> i < length mo.
Proof. intros H%where_lt. by rewrite length_map in H. Qed.

Lemma bg_eligible_lt (mo : list Q) (i : nat) :
  i ∈ bg_eligible cfg mo -> i < length mo.
Proof. intros H%where_lt. by rewrite length_map in H. Qed.

Lemma elem_of_fg_eligible (mo : list Q) (i : nat) (o : Q) :
  mo !! i = Some o -> i ∈ fg_eligible cfg mo <-> (fg_threshold cfg <= o)%Q.
Proof.
  intros Ho. unfold fg_eligible.
  rewrite elem_of_where, list_lookup_fmap, Ho. simpl.
  rewrite <-Qle_bool_iff. split; congruence.
Qed.

Lemma elem_of_bg_eligible (mo : list Q) (i : nat) (o : Q) :
  mo !! i = Some o -> i ∈ bg_eligible cfg mo <-> (o < bg_threshold cfg)%Q.
Proof.
  intros Ho. unfold bg_eligible.
  rewrite elem_of_where, list_lookup_fmap, Ho. simpl.
  rewrite <-Qltb_lt. split; congruence.
Qed.

(** The sampling never fails on a valid configuration, and this is what it
    returns; [st1] is the generator between the two draws. *)
Lemma sample_rois_spec (st : rng) (max_overlaps labels : list Q) :
  valid_flags cfg -> length max_overlaps <= length labels ->
  exists s st1, sample_rois cfg st max_overlaps labels = Ok s /\
    s_fg_rois s = fg_rois_of cfg (length (fg_eligible cfg max_overlaps)) /\
    s_bg_rois s = (rois_per_image cfg - s_fg_rois s)%Z /\
    zero_labels labels (bg_eligible cfg max_overlaps) = Ok (s_labels s) /\
    Z.of_nat (length (s_fg_inds s)) = s_fg_rois s /\
    (forall x, x ∈ s_fg_inds s -> x ∈ fg_eligible cfg max_overlaps) /\
    (fg_eligible cfg max_overlaps = [] -> st1 = st) /\
    (fg_eligible cfg max_overlaps <> [] ->
     choice st (fg_eligible cfg max_overlaps) (s_fg_rois s)
       = Ok (s_fg_inds s, st1)) /\
    (Z.of_nat (length (s_bg_inds s)) <= s_bg_rois s)%Z /\
    (forall x, x ∈ s_bg_inds s -> x ∈ bg_eligible cfg max_overlaps) /\
    ((Z.of_nat (length (bg_eligible cfg max_overlaps)) <= s_bg_rois s)%Z ->
     s_bg_inds s = bg_eligible cfg max_overlaps /\ s_rng s = st1) /\
    ((s_bg_rois s < Z.of_nat (length (bg_eligible cfg max_overlaps)))%Z ->
     choice st1 (bg_eligible cfg max_overlaps) (s_bg_rois s)
       = Ok (s_bg_inds s, s_rng s)).
Proof.
  intros Hcfg Hlen.
  pose proof (fg_rois_of_le_budget (length (fg_eligible cfg max_overlaps)) Hcfg)
    as Hbudget.
  destruct Hcfg as (Hn & Hf0 & Hf1).
  destruct (fg_rois_of_bounds (length (fg_eligible cfg max_overlaps)) Hn Hf0)
    as [Hr _].
  set (fg := fg_eligible cfg max_overlaps) in *.
  set (bg := bg_eligible cfg max_overlaps) in *.
  set (r := fg_rois_of cfg (length fg)) in *.
  set (b := (rois_per_image cfg - r)%Z).
  assert (exists fg' st1,
    (if 0 <? length fg then choice st fg r else Ok (fg, st)) = Ok (fg', st1) /\
    Z.of_nat (length fg') = r /\ (forall x, x ∈ fg' -> x ∈ fg) /\
    (fg = [] -> st1 = st) /\
    (fg <> [] -> choice st fg r = Ok (fg', st1)))
    as (fg' & st1 & Hfg & Hfglen & Hfgsub & Hfgnil & Hfgdraw).
  { destruct (decide (fg = [])) as [Hnil|Hne].
    - rewrite Hnil in *. simpl in *. exists [], st. simpl.
      repeat split; try done. lia.
    - destruct (choice_total st fg r Hne Hr) as (fg' & st1 & Hrun).
      exists fg', st1. destruct (choice_Ok _ _ _ _ _ Hrun) as (_ & Hl & Hs & _).
      replace (0 <? length fg) with true
        by (symmetry; apply Nat.ltb_lt; destruct fg; simpl; done || lia).
      repeat split; try done. lia. }
  destruct (zero_labels_spec labels bg) as (labels' & Hz & _).
  { apply Forall_forall. intros i Hi%bg_eligible_lt. lia. }
  assert (exists bg' st2,
    (if (0 <? length bg) && (b <? Z.of_nat (length bg))%Z
     then choice st1 bg b else Ok (bg, st1)) = Ok (bg', st2) /\
    (Z.of_nat (length bg') <= b)%Z /\ (forall x, x ∈ bg' -> x ∈ bg) /\
    ((Z.of_nat (length bg) <= b)%Z -> bg' = bg /\ st2 = st1) /\
    ((b < Z.of_nat (length bg))%Z -> choice st1 bg b = Ok (bg', st2)))
    as (bg' & st2 & Hbg & Hbglen & Hbgsub & Hbgfull & Hbgdraw).
  { destruct (b <? Z.of_nat (length bg))%Z eqn:E.
    - apply Z.ltb_lt in E.
      assert (bg <> []) as Hne by (intros Hnil; rewrite Hnil in E; simpl in E; lia).
      destruct (choice_total st1 bg b Hne) as (bg' & st2 & Hrun);
        [unfold b in *; lia|].
      exists bg', st2. destruct (choice_Ok _ _ _ _ _ Hrun) as (_ & Hl & Hs & _).
      replace (0 <? length bg) with true
        by (symmetry; apply Nat.ltb_lt; destruct bg; simpl; done || lia).
      simpl. repeat split; try done; lia.
    - apply Z.ltb_ge in E. rewrite andb_false_r.
      exists bg, st1. repeat split; try done; lia. }
  exists (Sampled r b fg' bg' labels' st2), st1. simpl.
  split.
  { unfold sample_rois. fold fg bg. fold (fg_rois_of cfg (length fg)). fold r.
    rewrite Hfg. cbn [mbind result_bind]. rewrite Hz. cbn [mbind result_bind].
    fold b. by rewrite Hbg. }
  repeat split; try done; by apply Hbgfull.
Qed.

(** The labels a successful sampling returns are the raw labels with the
    background-eligible positions set to 0. *)
Lemma sample_rois_labels (st : rng) (max_overlaps labels : list Q) (s : sampled) :
  sample_rois cfg st max_overlaps labels = Ok s ->
  zero_labels labels (bg_eligible cfg max_overlaps) = Ok (s_labels s).
Proof.
  unfold sample_rois. intros H.
  apply bind_Ok in H as ([fg' st1] & _ & H).
  apply bind_Ok in H as (labels' & Hz & H).
  apply bind_Ok in H as ([bg' st2] & _ & H).
  by injection H as <-.
Qed.

(** Whatever the configuration, the indices a successful sampling keeps are
    eligible ones. *)
Lemma sample_rois_eligible (st : rng) (max_overlaps labels : list Q) (s : sampled) :
  sample_rois cfg st max_overlaps labels = Ok s ->
  (forall x, x ∈ s_fg_inds s -> x ∈ fg_eligible cfg max_overlaps) /\
  (forall x, x ∈ s_bg_inds s -> x ∈ bg_eligible cfg max_overlaps).
Proof.
  unfold sample_rois. intros H.
  apply bind_Ok in H as ([fg' st1] & Hfg & H).
  apply bind_Ok in H as (labels' & _ & H).
  apply bind_Ok in H as ([bg' st2] & Hbg & H).
  injection H as <-. simpl. split.
  - destruct (0 <? _); [|by injection Hfg as <- <-].
    by apply choice_Ok in Hfg as (_ & _ & Hsub & _).
  - destruct (_ && _); [|by injection Hbg as <- <-].
    by apply choice_Ok in Hbg as (_ & _ & Hsub & _).
Qed.

End Sampling.

(** Every draw without replacement is the draw of some generator: for a
    permutation [p] of the positions of [a], the scripted generator makes
    [choice] return the entries of [a] at the first [size] positions of
    [p].  The statements that hold for every generator therefore hold for
    every outcome of the sampling. *)
Lemma choice_scripted (a : list nat) (size : Z) (p : list nat) :
  p ≡ₚ seq 0 (length a) -> a <> [] ->
  (0 <= size <= Z.of_nat (length a))%Z ->
  exists picked,
    @choice (Sample.scripted p) tt a size = Ok (picked, tt) /\
    Forall2 (fun i x => a !! i = Some x) (take (Z.to_nat size) p) picked.
Proof.
  intros Hp Ha Hsize.
  destruct (@choice_total (Sample.scripted p) tt a size Ha Hsize)
    as (picked & [] & Hrun).
  exists picked. split; [done|].
  unfold choice in Hrun.
  replace (size <? 0)%Z with false in Hrun by lia.
  replace (length a =? 0) with false in Hrun
    by (symmetry; apply Nat.eqb_neq; by destruct a).
  replace (Z.of_nat (length a) <? size)%Z with false in Hrun by lia.
  simpl in Hrun. unfold Sample.scripted_permutation in Hrun.
  rewrite decide_True in Hrun by done.
  apply bind_Ok in Hrun as (picked' & Hpick & [= <-]).
  by apply take__Ok.
Qed.

(** ** [encode] *)

Section Encode.

Context `{RS : RandomState}.
Variable cfg : FLAGS.
Variable bbox_overlaps : matrix -> matrix -> matrix.
Variable bbox_transform : matrix -> matrix -> matrix.

(** What a successful run of [encode] went through. *)
Lemma encode_Ok (st st' : rng) (gt_boxes rois r : matrix) (num_classes : Z)
    (labels : list Q) (T W : ndarray) :
  encode cfg bbox_overlaps bbox_transform st gt_boxes rois num_classes
    = Ok (labels, r, T, W, st') ->
  exists assignment max_overlaps labels0 s ex_rows kept gt_rows Tm Wm,
    match_rois bbox_overlaps gt_boxes rois
      = Ok (assignment, max_overlaps, labels0) /\
    sample_rois cfg st max_overlaps labels0 = Ok s /\
    labels = s_labels s /\ r = rois /\ st' = s_rng s /\
    take_ (rows rois) (keep_inds s) = Ok ex_rows /\
    take_ assignment (keep_inds s) = Ok kept /\
    take_ (rows gt_boxes) kept = Ok gt_rows /\
    _compute_targets bbox_transform (cols 0 4 (Mat (ncols rois) ex_rows))
      (cols 0 4 (Mat (ncols gt_boxes) gt_rows)) (s_labels s) num_classes
      = Ok (Tm, Wm) /\
    _unmap (Arr2 Tm) (shape0 rois) (keep_inds s) 0%Q = Ok T /\
    _unmap (Arr2 Wm) (shape0 rois) (keep_inds s) 0%Q = Ok W.
Proof.
  unfold encode. intros H.
  apply bind_Ok in H as ([[assignment max_overlaps] labels0] & Hm & H).
  apply bind_Ok in H as (s & Hs & H).
  apply bind_Ok in H as (ex_rows & Hex & H).
  apply bind_Ok in H as (kept & Hk & H).
  apply bind_Ok in H as (gt_rows & Hgt & H).
  apply bind_Ok in H as ([Tm Wm] & Hct & H).
  apply bind_Ok in H as (T' & HT & H).
  apply bind_Ok in H as (W' & HW & H).
  injection H as <- <- <- <- <-.
  by exists assignment, max_overlaps, labels0, s, ex_rows, kept, gt_rows, Tm, Wm.
Qed.


Section Inputs.

Variables gt_boxes rois : matrix.

Local Abbreviation overlaps :=
  (bbox_overlaps (cols 0 4 rois) (cols 0 4 gt_boxes)).

(** The contract of the overlap computation (one row per proposal, one
    column per ground-truth box) and the shape of the ground truth (at least
    one box, five columns). *)
Hypothesis overlaps_rows : shape0 overlaps = shape0 rois.
Hypothesis overlaps_cols :
  Forall (fun r => length r = shape0 gt_boxes) (rows overlaps).
Hypothesis gt_nonempty : 0 < shape0 gt_boxes.
Hypothesis gt_cols : Forall (fun r => length r = 5) (rows gt_boxes).

Lemma match_rois_spec :
  exists assignment max_overlaps labels0,
    match_rois bbox_overlaps gt_boxes rois
      = Ok (assignment, max_overlaps, labels0) /\
    length assignment = shape0 rois /\
    length max_overlaps = shape0 rois /\
    length labels0 = shape0 rois /\
    forall i orow, rows overlaps !! i = Some orow ->
      exists j o gtrow cls,
        assignment !! i = Some j /\ max_overlaps !! i = Some o /\
        first_max orow j o /\
        rows gt_boxes !! j = Some gtrow /\ gtrow !! 4 = Some cls /\
        labels0 !! i = Some cls.
Proof.
  unfold shape0 in *.
  assert (Forall (fun r => exists j m,
            argmax r = Ok j /\ amax r = Ok m /\ first_max r j m) (rows overlaps))
    as Hmax.
  { eapply Forall_impl; [exact overlaps_cols|]. intros r Hr. simpl in Hr.
    apply argmax_amax_first_max. intros ->. simpl in Hr. lia. }
  destruct (mapM_total argmax (rows overlaps)) as [assignment Ha].
  { eapply Forall_impl; [exact Hmax|]. intros r (j & m & ? & _). eauto. }
  pose proof (proj1 (mapM_Ok _ _ _) Ha) as Ha2.
  pose proof (Forall2_length _ _ _ Ha2) as Halen.
  assert (forall i orow, rows overlaps !! i = Some orow ->
            exists j o, assignment !! i = Some j /\ first_max orow j o /\
                        j < length (rows gt_boxes)) as Hrow.
  { intros i orow Ho.
    destruct (Forall2_lookup_l _ _ _ _ _ Ha2 Ho) as (j & Hj & Hj').
    destruct (Forall_lookup_1 _ _ _ _ Hmax Ho) as (j' & o & ? & _ & Hfm).
    assert (j' = j) as -> by congruence.
    exists j, o. repeat split; try done; try apply Hfm.
    apply first_max_lt in Hfm.
    by rewrite (Forall_lookup_1 _ _ _ _ overlaps_cols Ho) in Hfm. }
  set (pick := fun ri : nat * nat =>
                 r ← getitem (rows overlaps) ri.1; getitem r ri.2).
  destruct (mapM_total pick (zip (seq 0 (length (rows rois))) assignment))
    as [max_overlaps Hmo].
  { apply Forall_lookup. intros k [i j] Hk.
    apply lookup_zip_with_Some in Hk as (i' & j' & [= -> ->] & Hi & Hj).
    apply lookup_seq in Hi as [-> Hi]. simpl in *.
    destruct (lookup_lt_is_Some_2 (rows overlaps) k) as [orow Ho]; [lia|].
    destruct (Hrow k orow Ho) as (j & o & Hj2 & Hfm & _).
    assert (j = j') as -> by congruence.
    exists o. unfold pick. simpl. apply getitem_Ok in Ho. rewrite Ho. simpl.
    apply getitem_Ok, Hfm. }
  pose proof (proj1 (mapM_Ok _ _ _) Hmo) as Hmo2.
  destruct (take__total (rows gt_boxes) assignment) as [gt_rows Hg].
  { apply Forall_lookup. intros i j Hj.
    destruct (lookup_lt_is_Some_2 (rows overlaps) i) as [orow Ho].
    { apply lookup_lt_Some in Hj. lia. }
    destruct (Hrow i orow Ho) as (j' & o & Hj2 & _ & Hlt). congruence. }
  pose proof (proj1 (take__Ok _ _ _) Hg) as Hg2.
  destruct (mapM_total (fun r : list Q => getitem r 4) gt_rows)
    as [labels0 Hl].
  { apply Forall_lookup. intros i gtrow Hi.
    destruct (Forall2_lookup_r _ _ _ _ _ Hg2 Hi) as (j & _ & Hj).
    pose proof (Forall_lookup_1 _ _ _ _ gt_cols Hj) as Hlen. simpl in Hlen.
    destruct (lookup_lt_is_Some_2 gtrow 4) as [cls Hcls]; [lia|].
    exists cls. by apply getitem_Ok. }
  pose proof (proj1 (mapM_Ok _ _ _) Hl) as Hl2.
  exists assignment, max_overlaps, labels0. split.
  { unfold match_rois. rewrite Ha. cbn [mbind result_bind].
    unfold shape0. fold pick. rewrite Hmo. cbn [mbind result_bind].
    rewrite Hg. cbn [mbind result_bind]. by rewrite Hl. }
  split; [lia|]. split.
  { apply Forall2_length in Hmo2.
    rewrite length_zip_with, length_seq in Hmo2. lia. }
  split.
  { apply Forall2_length in Hg2, Hl2. lia. }
  intros i orow Ho.
  destruct (Hrow i orow Ho) as (j & o & Hj & Hfm & Hlt).
  assert (zip (seq 0 (length (rows rois))) assignment !! i = Some (i, j))
    as Hz.
  { apply lookup_zip_with_Some. exists i, j. split; [done|]. split; [|done].
    apply lookup_seq. split; [done|]. apply lookup_lt_Some in Ho. lia. }
  destruct (Forall2_lookup_l _ _ _ _ _ Hmo2 Hz) as (o' & Ho' & Hpick).
  unfold pick in Hpick. simpl in Hpick. apply bind_Ok in Hpick as (r' & Hr' & Hpick).
  apply getitem_Ok in Hr', Hpick.
  assert (r' = orow) as -> by congruence.
  assert (o' = o) as -> by (destruct Hfm as [Hfm _]; congruence).
  destruct (Forall2_lookup_l _ _ _ _ _ Hg2 Hj) as (gtrow & Hgi & Hgj).
  destruct (Forall2_lookup_l _ _ _ _ _ Hl2 Hgi) as (cls & Hli & Hcls).
  apply getitem_Ok in Hcls.
  by exists j, o, gtrow, cls.
Qed.





(** [encode] hands the labels of all proposals to [_compute_targets] and
    the arrays it gets back, one row per proposal, to [_unmap] together with
    the kept indices: it returns only when as many indices are kept as there
    are proposals, or when there is a single proposal. *)
Lemma encode_Ok_all_kept (st st' : rng) (num_classes : Z) (labels : list Q)
    (r : matrix) (T W : ndarray) :
  encode cfg bbox_overlaps bbox_transform st gt_boxes rois num_classes
    = Ok (labels, r, T, W, st') ->
  exists assignment max_overlaps labels0 s,
    match_rois bbox_overlaps gt_boxes rois
      = Ok (assignment, max_overlaps, labels0) /\
    sample_rois cfg st max_overlaps labels0 = Ok s /\
    (length (keep_inds s) = shape0 rois \/ shape0 rois = 1).
Proof.
  intros Hrun.
  destruct match_rois_spec as (assignment & mo & l0 & Hm & _ & _ & Hl0 & _).
  apply encode_Ok in Hrun
    as (a' & mo' & l0' & s & ex & kept & gtr & Tm & Wm
        & Hm' & Hs & _ & _ & _ & _ & _ & _ & Hct & HT & _).
  rewrite Hm in Hm'. injection Hm' as <- <- <-.
  exists assignment, mo, l0, s. split; [done|]. split; [done|].
  apply sample_rois_labels in Hs. apply setitem_length in Hs.
  apply compute_targets_dims in Hct as (Hrows & _).
  unfold _unmap in HT. apply bind_Ok in HT as (ret & Hset & _).
  apply setitem_Ok in Hset as (vals' & Hb & _).
  apply broadcast_to_Ok in Hb as [_ [[Hlen _]|[_ (v & Hv & _)]]].
  - left. unfold shape0 in *. lia.
  - right. unfold shape0 in *. rewrite Hv in Hrows. simpl in Hrows. lia.
Qed.

End Inputs.

End Encode.

(** ** The module on examples *)


(** C1: [encode] does not return arrays of R rows for every sampling
    outcome.  With one ground-truth box of class 1 and the thresholds 0.5 and
    0.1: two proposals of overlap 1 and 0.25 (one kept index) end in the
    index error of [_compute_targets], which is given the labels of both;
    three proposals of overlap 1, 0.25 and 0 (two kept indices) end in the
    shape error of [_unmap], which is given three rows for two indices. *)
Theorem encode_partial_keep_raises :
  Sample.encode0 0 (Mat 5 [[10; 10; 50; 50; 1]]%Q)
    (Mat 4 [[10; 10; 50; 50]; [10; 10; 50; 20]]%Q) 2
    = Raise IndexError /\
  Sample.encode0 0 (Mat 5 [[10; 10; 50; 50; 1]]%Q)
    (Mat 4 [[10; 10; 50; 50]; [10; 10; 50; 20]; [100; 100; 110; 110]]%Q) 2
    = Raise ValueError.
Proof. split; reflexivity. Qed.

(** The scenario of the design document: both proposals are kept, in
    order, and [encode] returns. *)
Example encode_scenario :
  Sample.encode0 0 (Mat 5 [[10; 10; 50; 50; 1]]%Q)
    (Mat 4 [[10; 10; 50; 50]; [100; 100; 110; 110]]%Q) 2
  = Ok ([1; 0]%Q,
        Mat 4 [[10; 10; 50; 50]; [100; 100; 110; 110]]%Q,
        Arr2 (Mat 8 [[0; 0; 0; 0; 0; 0; 0; 0]; [0; 0; 0; 0; 0; 0; 0; 0]]%Q),
        Arr2 (Mat 8 [[0; 0; 0; 0; 1; 1; 1; 1]; [0; 0; 0; 0; 0; 0; 0; 0]]%Q),
        1).
Proof. reflexivity. Qed.





(** * Further properties *)

(** ** More on the sampling of [encode] *)

Lemma py_int_nonpos (q : Q) : (q <= 0)%Q -> (py_int q <= 0)%Z.
Proof.
  destruct q as [n d]. unfold Qle, py_int. simpl. intros H.
  replace n with (- (- n))%Z by lia.
  rewrite Z.quot_opp_l by lia.
  assert (0 <= - n ÷ Z.pos d)%Z by (apply Z.quot_pos; lia). lia.
Qed.


Section SamplingMore.

Context `{RS : RandomState}.
Variable cfg : FLAGS.


Lemma sample_rois_NoDup (st : rng) (max_overlaps labels : list Q)
    (s : sampled) :
  sample_rois cfg st max_overlaps labels = Ok s ->
  NoDup (s_fg_inds s) /\ NoDup (s_bg_inds s).
Proof.
  intros Hs. unfold sample_rois in Hs.
  apply bind_Ok in Hs as ([fg' st1] & Hfg & Hs).
  apply bind_Ok in Hs as (labels' & _ & Hs).
  apply bind_Ok in Hs as ([bg' st2] & Hbg & Hs).
  injection Hs as <-. simpl. split.
  - destruct (0 <? _).
    + apply choice_Ok in Hfg as (_ & _ & _ & Hnd). apply Hnd, NoDup_where.
    + injection Hfg as <- <-. apply NoDup_where.
  - destruct (_ && _).
    + apply choice_Ok in Hbg as (_ & _ & _ & Hnd). apply Hnd, NoDup_where.
    + injection Hbg as <- <-. apply NoDup_where.
Qed.

Lemma keep_inds_lt (st : rng) (max_overlaps labels : list Q) (s : sampled) :
  sample_rois cfg st max_overlaps labels = Ok s ->
  Forall (fun i => i < length max_overlaps) (keep_inds s).
Proof.
  intros Hs.
  destruct (sample_rois_eligible cfg st max_overlaps labels s Hs)
    as [Hfgsub Hbgsub].
  unfold keep_inds. apply Forall_app. split; apply Forall_forall; intros i Hi.
  - by apply (fg_eligible_lt cfg), Hfgsub.
  - by apply (bg_eligible_lt cfg), Hbgsub.
Qed.

Lemma keep_inds_NoDup (st : rng) (max_overlaps labels : list Q) (s : sampled) :
  sample_rois cfg st max_overlaps labels = Ok s ->
  (bg_threshold cfg <= fg_threshold cfg)%Q -> NoDup (keep_inds s).
Proof.
  intros Hs Hth.
  destruct (sample_rois_eligible cfg st max_overlaps labels s Hs)
    as [Hfgsub Hbgsub].
  destruct (sample_rois_NoDup st max_overlaps labels s Hs) as [Hfgnd Hbgnd].
  unfold keep_inds. apply NoDup_app.
  split; [done|]. split; [|done].
  intros i Hfg%Hfgsub Hbg%Hbgsub.
  pose proof (fg_eligible_lt cfg _ _ Hfg) as Hlt.
  destruct (lookup_lt_is_Some_2 max_overlaps i Hlt) as [o Ho].
  rewrite (elem_of_fg_eligible cfg _ i o Ho) in Hfg.
  rewrite (elem_of_bg_eligible cfg _ i o Ho) in Hbg.
  apply (Qlt_irrefl o).
  eapply Qlt_le_trans; [exact Hbg|].
  eapply Qle_trans; [exact Hth|exact Hfg].
Qed.

(** X2: the indices a successful sampling keeps are positions of
    proposals; no foreground index is kept twice and no background index
    is kept twice; and when [bg_threshold <= fg_threshold] no index is kept
    both as foreground and as background, so [keep_inds] has no
    repetition. *)
Theorem sampling_distinct (st : rng) (max_overlaps labels : list Q)
    (s : sampled) :
  sample_rois cfg st max_overlaps labels = Ok s ->
  Forall (fun i => i < length max_overlaps) (keep_inds s) /\
  NoDup (s_fg_inds s) /\ NoDup (s_bg_inds s) /\
  ((bg_threshold cfg <= fg_threshold cfg)%Q -> NoDup (keep_inds s)).
Proof.
  intros Hs.
  destruct (sample_rois_NoDup st max_overlaps labels s Hs) as [Hfgnd Hbgnd].
  split; [by eapply keep_inds_lt|]. split; [done|]. split; [done|].
  by eapply keep_inds_NoDup.
Qed.

End SamplingMore.


Lemma sampling_distinct_witness :
  exists s,
    @sample_rois Sample.seeded Sample.cfg0 0 [1; 1 # 4; 0; 0]%Q [1; 1; 1; 1]%Q
      = Ok s /\
    NoDup (keep_inds s) /\ Forall (fun i => i < 4) (keep_inds s).
Proof.
  eexists. split; [reflexivity|].
  destruct (sampling_distinct (RS:=Sample.seeded) Sample.cfg0 0
              [1; 1 # 4; 0; 0]%Q [1; 1; 1; 1]%Q _ eq_refl)
    as (Hlt & _ & _ & Hnd).
  split; [|exact Hlt]. apply Hnd. unfold Qle. simpl. lia.
Defined.

(** ** More on [_unmap] *)

Lemma setitem_returns_iff {A} (ret : list A) (inds : list nat) (vals : list A) :
  (exists r, setitem ret inds vals = Ok r) <->
  (length vals = length inds \/ length vals = 1) /\
  Forall (fun i => i < length ret) inds.
Proof.
  split.
  - intros (r & (vals' & Hb & _ & Hin)%setitem_Ok). split; [|done].
    apply broadcast_to_Ok in Hb as [_ [[? _]|[_ (v & -> & _)]]]; auto.
  - intros [Hlen Hin].
    assert (exists vals', broadcast_to (length inds) vals = Ok vals') as [vals' Hb].
    { unfold broadcast_to. destruct (length vals =? length inds) eqn:E;
        [by eexists|].
      apply Nat.eqb_neq in E. destruct Hlen as [?|Hlen]; [done|].
      destruct vals as [|v [|??]]; try done. by eexists. }
    unfold setitem. rewrite Hb. cbn [mbind result_bind].
    replace (forallb _ inds) with true; [by eexists|].
    symmetry. apply forallb_forall. intros i Hi. apply Nat.ltb_lt.
    rewrite Forall_forall in Hin. by apply Hin, list_elem_of_In.
Qed.

Lemma NoDup_last_occurrence (inds : list nat) (k j : nat) :
  NoDup inds -> inds !! k = Some j -> last_occurrence inds k j.
Proof.
  intros Hnd Hk. split; [done|]. intros k' Hlt Hk'.
  pose proof (proj1 (NoDup_alt inds) Hnd _ _ _ Hk Hk'). lia.
Qed.


(** With every position listed once and in order, the writes rebuild the
    assigned items. *)
Lemma scatter_seq {A} (ret vals : list A) :
  length vals = length ret ->
  scatter ret (zip (seq 0 (length ret)) vals) = vals.
Proof.
  intros Hlen. apply list_eq. intros j.
  destruct (decide (j < length ret)) as [Hj|Hj].
  - apply scatter_last_write; [by rewrite length_seq|done|].
    apply NoDup_last_occurrence; [apply NoDup_seq|by apply lookup_seq].
  - rewrite !(lookup_ge_None_2) by (rewrite ?length_scatter; lia). done.
Qed.

(** X3: [_unmap] returns exactly when [data] has one item per index, or a
    single item, and every index is below [count]; every other call raises. *)
Theorem unmap_returns_iff (data : ndarray) (count : nat) (inds : list nat)
    (fill : Q) :
  (exists ret, _unmap data count inds fill = Ok ret) <->
  (nrows data = length inds \/ nrows data = 1) /\
  Forall (fun i => i < count) inds.
Proof.
  destruct data as [v|m]; unfold _unmap, nrows, shape0.
  - pose proof (setitem_returns_iff (replicate count fill) inds v) as H.
    rewrite length_replicate in H. rewrite <-H. split.
    + intros (ret & Hr). apply bind_Ok in Hr as (r & Hr & _). by exists r.
    + intros (r & Hr). rewrite Hr. by eexists.
  - pose proof (setitem_returns_iff (replicate count (replicate (ncols m) fill))
                  inds (rows m)) as H.
    rewrite length_replicate in H. rewrite <-H. split.
    + intros (ret & Hr). apply bind_Ok in Hr as (r & Hr & _). by exists r.
    + intros (r & Hr). rewrite Hr. by eexists.
Qed.





(** ** More on [_compute_targets] *)

Lemma expand_row_Ok_inv (targets : matrix) (clss : list Q)
    (acc acc' : list (list Q) * list (list Q)) (ind : nat) :
  expand_row targets clss acc ind = Ok acc' ->
  exists l trow brow wrow vals,
    clss !! ind = Some l /\ rows targets !! ind = Some trow /\
    acc.1 !! ind = Some brow /\ acc.2 !! ind = Some wrow /\
    broadcast_to
      (length (slice (Z.to_nat (4 * py_int l)) (Z.to_nat (4 * py_int l + 4))
                     brow))
      (slice 0 4 trow) = Ok vals /\
    acc' = (<[ind := list_inserts (Z.to_nat (4 * py_int l)) vals brow]> acc.1,
            <[ind := list_inserts (Z.to_nat (4 * py_int l))
                       (replicate
                          (length (slice (Z.to_nat (4 * py_int l))
                                         (Z.to_nat (4 * py_int l + 4)) wrow))
                          1%Q) wrow]> acc.2).
Proof.
  unfold expand_row. intros H.
  apply bind_Ok in H as (l & Hl%getitem_Ok & H).
  apply bind_Ok in H as (trow & Ht%getitem_Ok & H).
  apply bind_Ok in H as (brow & Hb%getitem_Ok & H).
  apply bind_Ok in H as (brow' & Hs & H).
  apply bind_Ok in H as (wrow & Hw%getitem_Ok & H).
  unfold setslice in Hs. apply bind_Ok in Hs as (vals & Hv & [= <-]).
  injection H as <-. by exists l, trow, brow, wrow, vals.
Qed.

Lemma expand_rows_Ok_inv (targets : matrix) (clss : list Q) (inds : list nat)
    (acc acc' : list (list Q) * list (list Q)) :
  NoDup inds -> expand_rows targets clss acc inds = Ok acc' ->
  forall i,
    (i ∉ inds -> acc'.1 !! i = acc.1 !! i /\ acc'.2 !! i = acc.2 !! i) /\
    (i ∈ inds ->
     exists l trow brow wrow vals,
       clss !! i = Some l /\ rows targets !! i = Some trow /\
       acc.1 !! i = Some brow /\ acc.2 !! i = Some wrow /\
       broadcast_to
         (length (slice (Z.to_nat (4 * py_int l)) (Z.to_nat (4 * py_int l + 4))
                        brow))
         (slice 0 4 trow) = Ok vals /\
       acc'.1 !! i = Some (list_inserts (Z.to_nat (4 * py_int l)) vals brow) /\
       acc'.2 !! i
       = Some (list_inserts (Z.to_nat (4 * py_int l))
                 (replicate
                    (length (slice (Z.to_nat (4 * py_int l))
                                   (Z.to_nat (4 * py_int l + 4)) wrow))
                    1%Q) wrow)).
Proof.
  revert acc. induction inds as [|ind inds IH]; intros acc Hnd H; simpl in H.
  - injection H as <-. intros i. split; [done|]. by intros ?%elem_of_nil.
  - apply NoDup_cons in Hnd as [Hnin Hnd].
    apply bind_Ok in H as (acc1 & H1 & H).
    apply expand_row_Ok_inv in H1
      as (l & trow & brow & wrow & vals & Hl & Ht & Hb & Hw & Hv & ->).
    specialize (IH _ Hnd H). intros i. split.
    + intros [Hne Hi]%not_elem_of_cons.
      destruct (proj1 (IH i) Hi) as [-> ->]. simpl.
      by rewrite !list_lookup_insert_ne by done.
    + intros Hi. destruct (decide (i = ind)) as [->|Hne].
      * destruct (proj1 (IH ind) Hnin) as [-> ->]. simpl.
        exists l, trow, brow, wrow, vals.
        rewrite !list_lookup_insert_eq by by eapply lookup_lt_Some.
        done.
      * apply elem_of_cons in Hi as [?|Hi]; [done|].
        destruct (proj2 (IH i) Hi)
          as (l' & trow' & brow' & wrow' & vals' & ? & ? & Hb' & Hw' & ?).
        simpl in Hb', Hw'.
        rewrite list_lookup_insert_ne in Hb', Hw' by done.
        by exists l', trow', brow', wrow', vals'.
Qed.

Section ComputeTargetsMore.

Variable bbox_transform : matrix -> matrix -> matrix.

(** The converse of [compute_targets_Ok]. *)
Lemma compute_targets_run (ex_rois gt_rois : matrix) (labels : list Q)
    (num_classes : Z) (acc : list (list Q) * list (list Q)) :
  shape0 ex_rois = shape0 gt_rois -> shape1 ex_rois = 4 -> shape1 gt_rois = 4 ->
  (0 <= num_classes)%Z ->
  expand_rows (bbox_transform ex_rois gt_rois) labels
    (replicate (length labels) (replicate (Z.to_nat (4 * num_classes)) 0%Q),
     replicate (length labels) (replicate (Z.to_nat (4 * num_classes)) 0%Q))
    (where_ (map (fun c => Qltb 0 c) labels)) = Ok acc ->
  _compute_targets bbox_transform ex_rois gt_rois labels num_classes
  = Ok (Mat (Z.to_nat (4 * num_classes)) acc.1,
        Mat (Z.to_nat (4 * num_classes)) acc.2).
Proof.
  intros H0 H1 H2 Hnc Hrun. unfold _compute_targets, py_assert.
  rewrite H0, H1, H2, !Nat.eqb_refl. cbn [mbind result_bind].
  rewrite zeros2_nonneg by lia.
  cbn [mbind result_bind shape0 shape1 ncols rows].
  rewrite zeros2_nonneg by lia.
  cbn [mbind result_bind shape0 shape1 ncols rows].
  unfold shape0. cbn [rows]. rewrite Nat2Z.id, length_replicate.
  by rewrite Hrun.
Qed.

Lemma positive_label_index (labels : list Q) (i : nat) (l : Q) :
  labels !! i = Some l ->
  i ∈ where_ (map (fun c => Qltb 0 c) labels) <-> (0 < l)%Q.
Proof.
  intros Hl. rewrite elem_of_where, list_lookup_fmap, Hl. simpl.
  rewrite <-Qltb_lt. split; congruence.
Qed.

(** X6: with box arrays that pass the assertions and a delta encoder that
    returns 4-column rows, [_compute_targets] returns exactly when
    [num_classes] is not negative and every positive label sits at a row for
    which a delta exists and has a class ([int] of the label) below
    [num_classes]; labels that are not positive are never looked at. *)
Theorem compute_targets_returns_iff (ex_rois gt_rois : matrix)
    (labels : list Q) (num_classes : Z) :
  shape0 ex_rois = shape0 gt_rois -> shape1 ex_rois = 4 -> shape1 gt_rois = 4 ->
  Forall (fun r => length r = 4) (rows (bbox_transform ex_rois gt_rois)) ->
  (exists out,
     _compute_targets bbox_transform ex_rois gt_rois labels num_classes
       = Ok out) <->
  (0 <= num_classes)%Z /\
  forall i l, labels !! i = Some l -> (0 < l)%Q ->
    i < shape0 (bbox_transform ex_rois gt_rois) /\ (py_int l < num_classes)%Z.
Proof.
  intros H0 H1 H2 Ht4.
  set (targets := bbox_transform ex_rois gt_rois) in *.
  set (w := Z.to_nat (4 * num_classes)).
  set (zrow := replicate w 0%Q).
  split.
  - intros ([T W] & H).
    apply compute_targets_Ok in H as (Hnc & acc & Hrun & _).
    split; [lia|]. intros i l Hl Hpos.
    destruct (proj2 (expand_rows_Ok_inv _ _ _ _ _ (NoDup_where _) Hrun i))
      as (l' & trow & brow & wrow & vals & Hl' & Ht & Hb & _ & Hv & _).
    { by apply (positive_label_index labels i l). }
    assert (l' = l) as -> by congruence.
    split; [by eapply lookup_lt_Some|].
    simpl in Hb. apply lookup_replicate in Hb as [-> _].
    pose proof (Forall_lookup_1 _ _ _ _ Ht4 Ht) as Hlen. simpl in Hlen.
    rewrite (slice_all 4 trow) in Hv by done.
    apply broadcast_to_Ok in Hv as [Hn [[Hv _]|[_ (v & -> & _)]]]; [|done].
    rewrite length_slice, length_replicate in Hv.
    assert (0 <= py_int l)%Z by by apply py_int_nonneg, Qlt_le_weak.
    lia.
  - intros [Hnc Hlab].
    destruct (expand_rows_spec targets labels w
                (where_ (map (fun c => Qltb 0 c) labels))
                (replicate (length labels) zrow, replicate (length labels) zrow))
      as (acc' & Hrun & _).
    { apply NoDup_where. }
    { intros ind Hind.
      assert (ind < length labels) as Hlt.
      { apply where_lt in Hind. by rewrite length_map in Hind. }
      destruct (lookup_lt_is_Some_2 labels ind Hlt) as [l Hl].
      apply (positive_label_index labels ind l Hl) in Hind.
      destruct (Hlab ind l Hl Hind) as [Hrow Hcls].
      destruct (lookup_lt_is_Some_2 (rows targets) ind Hrow) as [trow Htrow].
      assert (0 <= py_int l)%Z by by apply py_int_nonneg, Qlt_le_weak.
      exists l, trow, zrow, zrow. simpl.
      rewrite !lookup_replicate_2 by done.
      repeat split; try done.
      - unfold w. lia.
      - by eapply (Forall_lookup_1 _ _ _ _ Ht4).
      - apply length_replicate.
      - apply length_replicate. }
    eexists. by apply compute_targets_run.
Qed.

(** X7: in whatever [_compute_targets] returns, the inside weights are a
    mask of 0 and 1, and the targets are 0 wherever the weight is 0, with
    no assumption on the arguments. *)
Theorem compute_targets_mask (ex_rois gt_rois : matrix) (labels : list Q)
    (num_classes : Z) (bbox_targets bbox_inside_weights : matrix) :
  _compute_targets bbox_transform ex_rois gt_rois labels num_classes
    = Ok (bbox_targets, bbox_inside_weights) ->
  forall i trow wrow,
    rows bbox_targets !! i = Some trow ->
    rows bbox_inside_weights !! i = Some wrow ->
    forall j t x, trow !! j = Some t -> wrow !! j = Some x ->
      (x = 0%Q \/ x = 1%Q) /\ (x = 0%Q -> t = 0%Q).
Proof.
  intros H i trow wrow HT HW j t x Ht Hx.
  apply compute_targets_Ok in H as (_ & acc & Hrun & -> & ->).
  simpl in HT, HW.
  set (w := Z.to_nat (4 * num_classes)) in *.
  pose proof (expand_rows_Ok_inv _ _ _ _ _ (NoDup_where _) Hrun i) as [Hout Hin].
  destruct (decide (i ∈ where_ (map (fun c => Qltb 0 c) labels))) as [Hi|Hi].
  - destruct (Hin Hi)
      as (l & trow0 & brow & wrow0 & vals & _ & _ & Hb & Hw & Hv & HT' & HW').
    simpl in Hb, Hw.
    apply lookup_replicate in Hb as [-> _]. apply lookup_replicate in Hw as [-> _].
    apply broadcast_to_Ok in Hv as [Hn _].
    rewrite HT in HT'. injection HT' as ->.
    rewrite HW in HW'. injection HW' as ->.
    set (s := Z.to_nat (4 * py_int l)) in *.
    set (n := length (slice s (Z.to_nat (4 * py_int l + 4)) (replicate w 0%Q)))
      in *.
    apply list_lookup_inserts_Some in Hx as [[Hrange Hx]|(Hrange & _ & Hx)].
    + apply lookup_replicate in Hx as [-> _].
      split; [by left|]. intros _.
      rewrite length_replicate in Hrange.
      apply list_lookup_inserts_Some in Ht as [[_ Ht]|(Hrange' & _)];
        [|lia].
      by apply lookup_replicate in Ht as [-> _].
    + apply lookup_replicate in Hx as [-> _]. split; [by right|done].
  - destruct (Hout Hi) as [HT' HW']. simpl in HT', HW'.
    rewrite HT in HT'. rewrite HW in HW'.
    symmetry in HT', HW'.
    apply lookup_replicate in HT' as [-> _].
    apply lookup_replicate in HW' as [-> _].
    apply lookup_replicate in Ht as [-> _].
    apply lookup_replicate in Hx as [-> _]. split; [by left|done].
Qed.

End ComputeTargetsMore.

Lemma compute_targets_returns_iff_witness :
  exists out,
    Sample.compute_targets0 (Mat 4 [[10; 10; 50; 50]]%Q)
      (Mat 4 [[12; 12; 48; 52]]%Q) [1; 0; 0]%Q 2 = Ok out.
Proof.
  apply (compute_targets_returns_iff Sample.offset_transform
           (Mat 4 [[10; 10; 50; 50]]%Q) (Mat 4 [[12; 12; 48; 52]]%Q)
           [1; 0; 0]%Q 2 eq_refl eq_refl eq_refl ltac:(repeat constructor)).
  split; [lia|].
  intros [|[|[|i]]] l [= <-] Hpos; try by inversion Hpos.
  split; [unfold shape0; simpl; lia|reflexivity].
Defined.

Lemma compute_targets_mask_witness :
  exists T W,
    Sample.compute_targets0 (Mat 4 [[10; 10; 50; 50]]%Q)
      (Mat 4 [[12; 12; 48; 52]]%Q) [1; 0]%Q 2 = Ok (T, W) /\
    forall i trow wrow,
      rows T !! i = Some trow -> rows W !! i = Some wrow ->
      forall j t x, trow !! j = Some t -> wrow !! j = Some x ->
        (x = 0%Q \/ x = 1%Q) /\ (x = 0%Q -> t = 0%Q).
Proof.
  eexists _, _. split; [reflexivity|].
  exact (compute_targets_mask Sample.offset_transform
           (Mat 4 [[10; 10; 50; 50]]%Q) (Mat 4 [[12; 12; 48; 52]]%Q)
           [1; 0]%Q 2 _ _ eq_refl).
Defined.

(** ** More on [decode] *)

Lemma first_max_unique (row : list Q) (j j' : nat) (m m' : Q) :
  first_max row j m -> first_max row j' m' -> j = j' /\ m = m'.
Proof.
  intros (Hj & Hle & Hlt) (Hj' & Hle' & Hlt').
  assert (j = j') as ->.
  { destruct (Nat.lt_trichotomy j j') as [H|[H|H]]; [|done|].
    - exfalso. apply (Qlt_irrefl m).
      eapply Qlt_le_trans; [by eapply (Hlt' j m)|by eapply Hle].
    - exfalso. apply (Qlt_irrefl m').
      eapply Qlt_le_trans; [by eapply (Hlt j' m')|by eapply Hle']. }
  split; [done|congruence].
Qed.

Lemma argmax_Ok_first_max (row : list Q) (c : nat) :
  argmax row = Ok c -> exists m, first_max row c m.
Proof.
  intros H. destruct (argmax_amax_first_max row) as (j & m & Hj & _ & Hfm).
  { by intros ->. }
  exists m. congruence.
Qed.

Section DecodeMore.

Variable bbox_transform_inv : matrix -> matrix -> matrix.
Variable clip_boxes : matrix -> Q * Q -> matrix.

(** X8: with scores of at least one column and decoded boxes of
    [4 * nb] columns, [decode] returns exactly when there are no more
    decoded rows than rows of scores and, for every decoded row, the winning
    class has a block of four columns in it (it is below [nb]); every other
    call raises.  In particular it never returns a class for which there is
    no box. *)
Theorem decode_returns_iff (boxes scores rois : matrix) (ih iw : Q) (nb : nat) :
  wf scores -> 0 < shape1 scores ->
  Forall (fun r => length r = 4 * nb) (rows (bbox_transform_inv rois boxes)) ->
  (exists out,
     decode bbox_transform_inv clip_boxes boxes scores rois ih iw = Ok out) <->
  shape0 (bbox_transform_inv rois boxes) <= shape0 scores /\
  forall i srow c m,
    i < shape0 (bbox_transform_inv rois boxes) ->
    rows scores !! i = Some srow -> first_max srow c m -> c < nb.
Proof.
  intros Hwf Hk Hwidth.
  assert (Forall (fun r => r <> []) (rows scores)) as Hnonempty.
  { eapply Forall_impl; [exact Hwf|]. intros r Hr ->. simpl in Hr.
    unfold shape1 in Hk. lia. }
  revert Hwidth.
  intros Hwidth.
  set (decoded := bbox_transform_inv rois boxes) in *.
  unfold shape0. split.
  - intros (out & H). unfold decode in H. fold decoded in H.
    apply bind_Ok in H as (classes & Hcl%mapM_Ok & H).
    apply bind_Ok in H as (conf & _ & H).
    apply bind_Ok in H as (sel & Hsel%mapM_Ok & _).
    pose proof (Forall2_length _ _ _ Hcl) as Hcllen.
    assert (forall i, i < length (rows decoded) ->
              exists b, select_box decoded classes i = Ok b) as Hbox.
    { intros i Hi.
      destruct (Forall2_lookup_l _ _ _ i i Hsel) as (b & _ & Hb).
      { by apply lookup_seq. }
      by exists b. }
    split.
    + destruct (decide (length (rows decoded) <= length (rows scores)))
        as [|Hgt]; [done|].
      destruct (Hbox (length (rows scores))) as [b Hb]; [lia|].
      unfold select_box in Hb.
      apply bind_Ok in Hb as (c & Hc%getitem_Ok & _).
      apply lookup_lt_Some in Hc. lia.
    + intros i srow c m Hi Hs Hfm.
      destruct (Hbox i Hi) as [b Hb]. unfold select_box in Hb.
      apply bind_Ok in Hb as (c' & Hc'%getitem_Ok & Hb).
      apply bind_Ok in Hb as (drow & Hd%getitem_Ok & Hb).
      destruct (Forall2_lookup_l _ _ _ _ _ Hcl Hs) as (c'' & Hc'' & Harg).
      assert (c'' = c') as -> by congruence.
      apply argmax_Ok_first_max in Harg as [m' Hfm'].
      destruct (first_max_unique _ _ _ _ _ Hfm Hfm') as [-> _].
      unfold setslice in Hb. apply bind_Ok in Hb as (vals & Hv & _).
      pose proof (Forall_lookup_1 _ _ _ _ Hwidth Hd) as Hlen. simpl in Hlen.
      apply broadcast_to_Ok in Hv as [_ [[Hv _]|[Hne (v & Hv & _)]]].
      * rewrite !length_slice, length_replicate in Hv. lia.
      * assert (length (slice (c' * 4) (c' * 4 + 4) drow) = 1) as Hone
          by by rewrite Hv.
        rewrite length_slice in Hone. lia.
  - intros (Hrows & Hcls).
    destruct (mapM_total argmax (rows scores)) as [classes Hcl].
    { eapply Forall_impl; [exact Hnonempty|]. intros r Hr.
      destruct (argmax_amax_first_max r Hr) as (j & m & ? & _). eauto. }
    destruct (mapM_total amax (rows scores)) as [conf Hconf].
    { eapply Forall_impl; [exact Hnonempty|]. intros r Hr.
      destruct (argmax_amax_first_max r Hr) as (j & m & _ & ? & _). eauto. }
    pose proof (proj1 (mapM_Ok _ _ _) Hcl) as Hcl2.
    destruct (mapM_total (select_box decoded classes)
                (seq 0 (length (rows decoded)))) as [sel Hsel].
    { apply Forall_forall. intros i [_ Hi]%elem_of_seq. simpl in Hi.
      destruct (lookup_lt_is_Some_2 (rows scores) i) as [srow Hs]; [lia|].
      destruct (lookup_lt_is_Some_2 (rows decoded) i) as [drow Hd]; [lia|].
      destruct (Forall2_lookup_l _ _ _ _ _ Hcl2 Hs) as (c & Hc & Harg).
      apply argmax_Ok_first_max in Harg as [m Hfm].
      pose proof (Hcls i srow c m Hi Hs Hfm) as Hlt.
      pose proof (Forall_lookup_1 _ _ _ _ Hwidth Hd) as Hlen. simpl in Hlen.
      eexists. apply (select_box_ok decoded classes i c drow); [done|done|lia]. }
    eexists. unfold decode. fold decoded.
    rewrite Hcl. cbn [mbind result_bind]. rewrite Hconf.
    cbn [mbind result_bind]. unfold shape0. by rewrite Hsel.
Qed.

End DecodeMore.

Lemma decode_returns_iff_witness :
  exists out,
    Sample.decode0 (Mat 8 [[0; 0; 0; 0; 0; 0; 0; 0]]%Q)
      (Mat 2 [[1 # 10; 9 # 10]]) (Mat 4 [[10; 10; 50; 50]]%Q) 100 100 = Ok out.
Proof.
  apply (decode_returns_iff Sample.offset_transform_inv Sample.clamp_boxes
           (Mat 8 [[0; 0; 0; 0; 0; 0; 0; 0]]%Q)
           (Mat 2 [[1 # 10; 9 # 10]]) (Mat 4 [[10; 10; 50; 50]]%Q) 100 100 2).
  - repeat constructor.
  - unfold shape1. simpl. lia.
  - repeat constructor.
  - split; [unfold shape0; simpl; lia|].
    intros i srow c m Hi Hs Hfm.
    destruct i; [|unfold shape0 in Hi; simpl in Hi; lia].
    injection Hs as <-. apply first_max_lt in Hfm. simpl in Hfm. lia.
Defined.

(** ** More on [encode] *)

Section EncodeMore.

Context `{RS : RandomState}.
Variable cfg : FLAGS.
Variable bbox_overlaps : matrix -> matrix -> matrix.
Variable bbox_transform : matrix -> matrix -> matrix.
Variables gt_boxes rois : matrix.

Local Abbreviation overlaps :=
  (bbox_overlaps (cols 0 4 rois) (cols 0 4 gt_boxes)).

Hypothesis overlaps_rows : shape0 overlaps = shape0 rois.
Hypothesis overlaps_cols :
  Forall (fun r => length r = shape0 gt_boxes) (rows overlaps).
Hypothesis gt_nonempty : 0 < shape0 gt_boxes.
Hypothesis gt_cols : Forall (fun r => length r = 5) (rows gt_boxes).

(** X9: with at least two proposals and [bg_threshold <= fg_threshold],
    [encode] returns only when the sampling has kept every proposal exactly
    once (the kept indices are a permutation of all positions), so only
    when every proposal is foreground- or background-eligible. *)
Theorem encode_returns_only_full (st st' : rng) (num_classes : Z)
    (labels : list Q) (r : matrix) (T W : ndarray) :
  encode cfg bbox_overlaps bbox_transform st gt_boxes rois num_classes
    = Ok (labels, r, T, W, st') ->
  2 <= shape0 rois -> (bg_threshold cfg <= fg_threshold cfg)%Q ->
  exists assignment max_overlaps labels0 s,
    match_rois bbox_overlaps gt_boxes rois
      = Ok (assignment, max_overlaps, labels0) /\
    sample_rois cfg st max_overlaps labels0 = Ok s /\
    keep_inds s ≡ₚ seq 0 (shape0 rois) /\
    forall i o, max_overlaps !! i = Some o ->
      (fg_threshold cfg <= o)%Q \/ (o < bg_threshold cfg)%Q.
Proof.
  intros Hrun HR Hth.
  destruct (match_rois_spec bbox_overlaps gt_boxes rois overlaps_rows
              overlaps_cols gt_nonempty gt_cols)
    as (a0 & mo0 & l00 & Hm0 & _ & Hmo & _).
  destruct (encode_Ok_all_kept cfg bbox_overlaps bbox_transform gt_boxes rois
              overlaps_rows overlaps_cols gt_nonempty gt_cols _ _ _ _ _ _ _ Hrun)
    as (assignment & mo & l0 & s & Hm & Hs & Hkept).
  rewrite Hm0 in Hm. injection Hm as <- <- <-.
  exists a0, mo0, l00, s. split; [done|]. split; [done|].
  destruct Hkept as [Hlen|]; [|lia].
  assert (keep_inds s ≡ₚ seq 0 (shape0 rois)) as Hperm.
  { apply submseteq_length_Permutation; [|by rewrite length_seq, Hlen].
    apply NoDup_submseteq; [by eapply keep_inds_NoDup|].
    intros i Hi. apply elem_of_seq.
    pose proof (keep_inds_lt cfg _ _ _ _ Hs) as Hlt.
    rewrite Forall_forall in Hlt. specialize (Hlt i Hi). lia. }
  split; [done|].
  intros i o Ho.
  assert (i ∈ keep_inds s) as Hi.
  { rewrite Hperm. apply elem_of_seq. apply lookup_lt_Some in Ho. lia. }
  destruct (sample_rois_eligible cfg _ _ _ _ Hs) as [Hfgsub Hbgsub].
  unfold keep_inds in Hi. apply elem_of_app in Hi as [Hi|Hi].
  - left. by apply (elem_of_fg_eligible cfg mo0 i o Ho), Hfgsub.
  - right. by apply (elem_of_bg_eligible cfg mo0 i o Ho), Hbgsub.
Qed.

(** X10: on a valid configuration, [encode] raises on every batch of at
    least two proposals that has more proposals than [rois_per_image],
    whatever the generator draws. *)
Theorem encode_over_budget_raises (st : rng) (num_classes : Z) :
  valid_flags cfg -> 2 <= shape0 rois ->
  (rois_per_image cfg < Z.of_nat (shape0 rois))%Z ->
  exists e,
    encode cfg bbox_overlaps bbox_transform st gt_boxes rois num_classes
      = Raise e.
Proof.
  intros Hcfg HR Hover.
  destruct (encode cfg bbox_overlaps bbox_transform st gt_boxes rois
              num_classes) as [[[[[labels r] T] W] st']|e] eqn:Hrun;
    [exfalso|by exists e].
  destruct (match_rois_spec bbox_overlaps gt_boxes rois overlaps_rows
              overlaps_cols gt_nonempty gt_cols)
    as (a0 & mo0 & l00 & Hm0 & _ & Hmo & Hl0 & _).
  destruct (encode_Ok_all_kept cfg bbox_overlaps bbox_transform gt_boxes rois
              overlaps_rows overlaps_cols gt_nonempty gt_cols _ _ _ _ _ _ _ Hrun)
    as (assignment & mo & l0 & s & Hm & Hs & Hkept).
  rewrite Hm0 in Hm. injection Hm as <- <- <-.
  destruct Hkept as [Hlen|]; [|lia].
  destruct (sample_rois_spec cfg st mo0 l00 Hcfg) as
    (s' & st1 & Hs' & Hr & Hb & _ & Hfglen & _ & _ & _ & Hbglen & _); [lia|].
  rewrite Hs in Hs'. injection Hs' as <-.
  unfold keep_inds in Hlen. rewrite length_app in Hlen. lia.
Qed.

End EncodeMore.

Lemma where_from_all_false (i : nat) (mask : list bool) :
  Forall (fun b => b = false) mask -> where_from i mask = [].
Proof.
  revert i. induction mask as [|b mask IH]; intros i Hall; [done|].
  apply Forall_cons in Hall as [-> Hall]. simpl. by apply IH.
Qed.

Lemma where_from_all_true (i : nat) (mask : list bool) :
  Forall (fun b => b = true) mask -> where_from i mask = seq i (length mask).
Proof.
  revert i. induction mask as [|b mask IH]; intros i Hall; [done|].
  apply Forall_cons in Hall as [-> Hall]. simpl. f_equal. by apply IH.
Qed.

Lemma take__seq {A} (l : list A) : take_ l (seq 0 (length l)) = Ok l.
Proof.
  apply take__Ok. apply Forall2_same_length_lookup_2; [by rewrite length_seq|].
  intros k i x Hi Hx. by apply lookup_seq in Hi as [-> _].
Qed.

Lemma zero_labels_all (labels : list Q) :
  zero_labels labels (seq 0 (length labels))
  = Ok (replicate (length labels) 0%Q).
Proof.
  destruct (zero_labels_spec labels (seq 0 (length labels)))
    as (labels' & Hz & Hlen & Hlab).
  { apply Forall_forall. intros i Hi%elem_of_seq. lia. }
  rewrite Hz. f_equal. apply list_eq. intros i.
  destruct (decide (i < length labels)) as [Hi|Hi].
  - rewrite lookup_replicate_2 by done. apply (Hlab i), elem_of_seq. lia.
  - rewrite !lookup_ge_None_2; rewrite ?length_replicate; done || lia.
Qed.

Section EncodeEdges.

Context `{RS : RandomState}.
Variable cfg : FLAGS.
Variable bbox_overlaps : matrix -> matrix -> matrix.
Variable bbox_transform : matrix -> matrix -> matrix.
Variables gt_boxes rois : matrix.

Local Abbreviation overlaps :=
  (bbox_overlaps (cols 0 4 rois) (cols 0 4 gt_boxes)).

Hypothesis overlaps_rows : shape0 overlaps = shape0 rois.
Hypothesis overlaps_cols :
  Forall (fun r => length r = shape0 gt_boxes) (rows overlaps).

(** With no positive label and boxes that pass the assertions, the two
    arrays stay zero, whatever the deltas are. *)
Lemma compute_targets_no_positive (ex_rois gt_rois : matrix) (labels : list Q)
    (num_classes : Z) :
  shape0 ex_rois = shape0 gt_rois -> shape1 ex_rois = 4 -> shape1 gt_rois = 4 ->
  (0 <= num_classes)%Z -> Forall (fun l => ~ (0 < l)%Q) labels ->
  _compute_targets bbox_transform ex_rois gt_rois labels num_classes
  = Ok (Mat (Z.to_nat (4 * num_classes))
          (replicate (length labels)
             (replicate (Z.to_nat (4 * num_classes)) 0%Q)),
        Mat (Z.to_nat (4 * num_classes))
          (replicate (length labels)
             (replicate (Z.to_nat (4 * num_classes)) 0%Q))).
Proof.
  intros H0 H1 H2 Hnc Hneg.
  apply (compute_targets_run bbox_transform ex_rois gt_rois labels num_classes
           (_, _)); try done.
  unfold where_. rewrite where_from_all_false; [done|].
  apply Forall_fmap. eapply Forall_impl; [exact Hneg|].
  intros l Hl. simpl. destruct (Qltb 0 l) eqn:E; [|done].
  by apply Qltb_lt in E.
Qed.

(** X11: a batch without ground-truth box is an error: with at least one
    proposal and an overlap matrix of no column, [encode] raises ValueError
    (the [argmax] of an empty row) before anything is sampled. *)
Theorem encode_no_ground_truth (st : rng) (num_classes : Z) :
  shape0 gt_boxes = 0 -> 0 < shape0 rois ->
  encode cfg bbox_overlaps bbox_transform st gt_boxes rois num_classes
    = Raise ValueError.
Proof.
  intros HG HR. unfold encode, match_rois.
  unfold shape0 in overlaps_rows, overlaps_cols, HR, HG.
  destruct (rows overlaps) as [|r rest] eqn:E.
  { simpl in overlaps_rows. unfold shape0 in *. lia. }
  apply Forall_cons in overlaps_cols as [Hr _]. rewrite HG in Hr.
  destruct r; [|done]. done.
Qed.

(** X12: a batch in which every overlap is below both thresholds, with no
    more proposals than [rois_per_image]: [encode] returns, without drawing
    from the generator, labels that are all 0, the proposals as given, and
    targets and inside weights of R rows of [4 * num_classes] zeros. *)
Theorem encode_all_background (st : rng) (num_classes : Z) :
  0 < shape0 gt_boxes -> Forall (fun r => length r = 5) (rows gt_boxes) ->
  4 <= shape1 gt_boxes -> 4 <= shape1 rois -> (0 <= num_classes)%Z ->
  Forall (Forall (fun o => (o < bg_threshold cfg)%Q /\
                           (o < fg_threshold cfg)%Q)) (rows overlaps) ->
  (Z.of_nat (shape0 rois) <= rois_per_image cfg)%Z ->
  encode cfg bbox_overlaps bbox_transform st gt_boxes rois num_classes
  = Ok (replicate (shape0 rois) 0%Q, rois,
        Arr2 (Mat (Z.to_nat (4 * num_classes))
                (replicate (shape0 rois)
                   (replicate (Z.to_nat (4 * num_classes)) 0%Q))),
        Arr2 (Mat (Z.to_nat (4 * num_classes))
                (replicate (shape0 rois)
                   (replicate (Z.to_nat (4 * num_classes)) 0%Q))),
        st).
Proof.
  intros gt_nonempty gt_cols Hgt4 Hrois4 Hnc Hlow Hbudget.
  destruct (match_rois_spec bbox_overlaps gt_boxes rois overlaps_rows
              overlaps_cols gt_nonempty gt_cols)
    as (assignment & mo & l0 & Hm & Halen & Hmo & Hl0 & Hrows).
  assert (Forall (fun o => (o < bg_threshold cfg)%Q /\ (o < fg_threshold cfg)%Q)
                 mo) as Hmolow.
  { apply Forall_lookup. intros i o Ho.
    destruct (lookup_lt_is_Some_2 (rows overlaps) i) as [orow Horow].
    { apply lookup_lt_Some in Ho. unfold shape0 in *. lia. }
    destruct (Hrows i orow Horow) as (j & o' & _ & _ & _ & Ho' & Hfm & _).
    assert (o' = o) as -> by congruence.
    destruct Hfm as (Hj & _).
    eapply (Forall_lookup_1 _ _ _ _ (Forall_lookup_1 _ _ _ _ Hlow Horow) Hj). }
  assert (fg_eligible cfg mo = []) as Hfg.
  { unfold fg_eligible, where_. apply where_from_all_false, Forall_fmap.
    eapply Forall_impl; [exact Hmolow|]. intros o [_ Ho]. simpl.
    destruct (Qle_bool (fg_threshold cfg) o) eqn:E; [|done].
    apply Qle_bool_iff in E. by apply Qlt_not_le in Ho. }
  assert (bg_eligible cfg mo = seq 0 (shape0 rois)) as Hbg.
  { unfold bg_eligible, where_. rewrite where_from_all_true.
    - by rewrite length_map, Hmo.
    - apply Forall_fmap. eapply Forall_impl; [exact Hmolow|].
      intros o [Ho _]. simpl. by apply Qltb_lt. }
  assert (sample_rois cfg st mo l0
          = Ok (Sampled (fg_rois_of cfg 0)
                  (rois_per_image cfg - fg_rois_of cfg 0)
                  [] (seq 0 (shape0 rois)) (replicate (shape0 rois) 0%Q) st))
    as Hs.
  { unfold sample_rois. rewrite Hfg, Hbg.
    change (length (@nil nat)) with 0.
    change (0 <? 0) with false. cbn [mbind result_bind].
    rewrite <-Hl0 at 1. rewrite zero_labels_all, Hl0.
    cbn [mbind result_bind].
    fold (fg_rois_of cfg 0).
    assert (fg_rois_of cfg 0 <= 0)%Z as Hr.
    { apply py_int_nonpos. apply py_min_le_l. }
    rewrite length_seq.
    replace (_ <? Z.of_nat (shape0 rois))%Z with false by lia.
    by rewrite andb_false_r. }
  destruct (take__total (rows gt_boxes) assignment) as [gt_rows Hg].
  { apply Forall_lookup. intros i j Hj.
    destruct (lookup_lt_is_Some_2 (rows overlaps) i) as [orow Horow].
    { apply lookup_lt_Some in Hj. unfold shape0 in *. lia. }
    destruct (Hrows i orow Horow) as (j' & _ & gtrow & _ & Hj' & _ & _ & Hgj & _).
    assert (j' = j) as -> by congruence. by eapply lookup_lt_Some. }
  assert (length gt_rows = shape0 rois) as Hglen.
  { apply take__Ok, Forall2_length in Hg. lia. }
  unfold encode. rewrite Hm. cbn [mbind result_bind].
  rewrite Hs. cbn [mbind result_bind s_labels s_rng].
  unfold keep_inds. cbn [s_fg_inds s_bg_inds app].
  replace (take_ (rows rois) (seq 0 (shape0 rois))) with (Ok (rows rois))
    by (symmetry; apply take__seq).
  cbn [mbind result_bind].
  replace (take_ assignment (seq 0 (shape0 rois))) with (Ok assignment)
    by (rewrite <-Halen; symmetry; apply take__seq).
  cbn [mbind result_bind].
  rewrite Hg. cbn [mbind result_bind].
  rewrite compute_targets_no_positive.
  - cbn [mbind result_bind]. rewrite length_replicate.
    unfold _unmap. cbn [rows ncols].
    rewrite !setitem_total
      by (rewrite ?length_replicate, ?length_seq; try done;
          apply Forall_forall; intros i Hi%elem_of_seq; lia).
    cbn [mbind result_bind].
    pose proof (scatter_seq
                  (replicate (shape0 rois)
                     (replicate (Z.to_nat (4 * num_classes)) 0%Q))
                  (replicate (shape0 rois)
                     (replicate (Z.to_nat (4 * num_classes)) 0%Q)) eq_refl)
      as Hid.
    rewrite length_replicate in Hid. by rewrite Hid.
  - unfold shape0, cols. cbn [rows]. rewrite !length_map. unfold shape0 in *. lia.
  - unfold shape1, cols. cbn [ncols]. unfold shape1 in Hrois4. lia.
  - unfold shape1, cols. cbn [ncols]. unfold shape1 in Hgt4. lia.
  - done.
  - apply Forall_replicate. by apply Qlt_irrefl.
Qed.

End EncodeEdges.

Section EncodePositions.

Context `{RS : RandomState}.
Variable cfg : FLAGS.
Variable bbox_overlaps : matrix -> matrix -> matrix.
Variable bbox_transform : matrix -> matrix -> matrix.

(** The contract of the box-delta encoder: 4-D deltas for 4-D boxes. *)
Hypothesis transform_cols :
  forall a b,
    Forall (fun r => length r = 4) (rows a) ->
    Forall (fun r => length r = 4) (rows b) ->
    Forall (fun r => length r = 4) (rows (bbox_transform a b)).

Lemma take_cols4 (m : list (list Q)) (n : nat) (inds : list nat)
    (picked : list (list Q)) :
  Forall (fun r => 4 <= length r) m -> take_ m inds = Ok picked ->
  Forall (fun r => length r = 4) (rows (cols 0 4 (Mat n picked))).
Proof.
  intros Hm Hp%take__Ok. cbn [cols rows]. apply Forall_fmap, Forall_lookup.
  intros k row Hrow. simpl.
  destruct (Forall2_lookup_r _ _ _ _ _ Hp Hrow) as (i & _ & Hi).
  pose proof (Forall_lookup_1 _ _ _ _ Hm Hi) as Hlen. simpl in Hlen.
  rewrite length_slice. lia.
Qed.

(** X13: whenever [encode] returns (on boxes of at least four columns,
    with [bg_threshold <= fg_threshold]),
    the row of inside weights of the proposal kept at position [k] of
    [keep_inds] is the class mask of [labels[k]], the label at position [k]
    of the label array: [_compute_targets] is given the labels of all
    proposals in their original order, not the labels of the kept ones, so
    the mask of a proposal is that of its own label only where
    [keep_inds[k] = k]. *)
Theorem encode_weights_by_position (st st' : rng) (gt_boxes rois r : matrix)
    (num_classes : Z) (labels : list Q) (T W : ndarray) :
  Forall (fun row => 4 <= length row) (rows rois) ->
  Forall (fun row => 4 <= length row) (rows gt_boxes) ->
  encode cfg bbox_overlaps bbox_transform st gt_boxes rois num_classes
    = Ok (labels, r, T, W, st') ->
  (bg_threshold cfg <= fg_threshold cfg)%Q ->
  exists assignment max_overlaps labels0 s Wm,
    match_rois bbox_overlaps gt_boxes rois
      = Ok (assignment, max_overlaps, labels0) /\
    sample_rois cfg st max_overlaps labels0 = Ok s /\
    W = Arr2 Wm /\
    forall k i l,
      keep_inds s !! k = Some i -> labels !! k = Some l ->
      rows Wm !! i = Some (class_mask (Z.to_nat (4 * num_classes)) l).
Proof.
  intros Hrois4 Hgt4 Hrun Hth.
  apply encode_Ok in Hrun
    as (assignment & mo & l0 & s & ex & kept & gtr & Tm & Wm0
        & Hm & Hs & -> & _ & _ & Hex & _ & Hgtr & Hct & _ & HW).
  unfold _unmap in HW. apply bind_Ok in HW as (ret' & Hset & [= <-]).
  exists assignment, mo, l0, s, (Mat (ncols Wm0) ret').
  split; [done|]. split; [done|]. split; [done|].
  intros k i l Hk Hl. cbn [rows].
  pose proof (compute_targets_dims _ _ _ _ _ _ _ Hct) as (_ & HWrows & _).
  pose proof (transform_cols _ _
                (take_cols4 _ (ncols rois) _ _ Hrois4 Hex)
                (take_cols4 _ (ncols gt_boxes) _ _ Hgt4 Hgtr)) as Ht4.
  apply compute_targets_Ok in Hct as (Hnc & acc & Hexp & _ & ->).
  cbn [rows ncols] in *. unfold shape0 in HWrows. cbn [rows] in HWrows.
  set (w := Z.to_nat (4 * num_classes)) in *.
  (* what [_unmap] puts at row [i] is row [k] of what it was given *)
  assert (ret' !! i = acc.2 !! k) as ->.
  { apply setitem_Ok in Hset as (vals' & Hb & -> & Hin).
    pose proof (Forall_lookup_1 _ _ _ _ Hin Hk) as Hi. simpl in Hi.
    pose proof (broadcast_to_Ok _ _ _ Hb) as [Hlen Hcase].
    rewrite (scatter_last_write _ (keep_inds s) vals' k i); try done.
    - destruct Hcase as [[_ ->]|[_ (v & Hv & ->)]]; [done|].
      rewrite Hv in HWrows. simpl in HWrows.
      assert (k = 0) as -> by (apply lookup_lt_Some in Hl; lia).
      rewrite Hv. simpl. apply lookup_replicate_2.
      by eapply lookup_lt_Some.
    - apply NoDup_last_occurrence; [|done]. by eapply keep_inds_NoDup. }
  (* row [k] was built from the label at position [k] *)
  pose proof (expand_rows_Ok_inv _ _ _ _ _ (NoDup_where _) Hexp k)
    as [Hout Hin].
  assert (k < length (s_labels s)) as Hklt by by eapply lookup_lt_Some.
  unfold class_mask. destruct (Qltb 0 l) eqn:Epos.
  - apply Qltb_lt in Epos.
    destruct Hin as (l' & trow & brow & wrow & vals & Hl' & Htrow & Hb & Hw
                     & Hv & _ & Hacc).
    { by apply (positive_label_index (s_labels s) k l). }
    assert (l' = l) as -> by congruence.
    simpl in Hb, Hw.
    apply lookup_replicate in Hb as [-> _].
    apply lookup_replicate in Hw as [-> _].
    pose proof (Forall_lookup_1 _ _ _ _ Ht4 Htrow) as Hlen4. simpl in Hlen4.
    rewrite (slice_all 4 trow) in Hv by done.
    apply broadcast_to_Ok in Hv as [_ [[Hv _]|[_ (v & -> & _)]]]; [|done].
    assert (0 <= py_int l)%Z by by apply py_int_nonneg, Qlt_le_weak.
    rewrite Hacc, <-Hv, Hlen4.
    by replace (Z.to_nat (4 * py_int l)) with (4 * Z.to_nat (py_int l)) by lia.
  - apply Qltb_ge in Epos.
    destruct Hout as [_ ->].
    { rewrite (positive_label_index (s_labels s) k l) by done.
      by apply Qle_not_lt. }
    simpl. by apply lookup_replicate_2.
Qed.

End EncodePositions.

(** ** The further properties on examples *)

Lemma offset_transform_cols (a b : matrix) :
  Forall (fun r => length r = 4) (rows a) ->
  Forall (fun r => length r = 4) (rows b) ->
  Forall (fun r => length r = 4) (rows (Sample.offset_transform a b)).
Proof.
  intros Ha Hb. unfold Sample.offset_transform. cbn [rows].
  apply Forall_lookup. intros k row Hrow.
  apply lookup_zip_with_Some in Hrow as (ra & rb & -> & Hra & Hrb).
  pose proof (Forall_lookup_1 _ _ _ _ Ha Hra) as Hla.
  pose proof (Forall_lookup_1 _ _ _ _ Hb Hrb) as Hlb. simpl in *.
  rewrite length_zip_with. lia.
Qed.

Lemma encode_returns_only_full_witness :
  exists assignment max_overlaps labels0 s,
    match_rois Sample.iou_overlaps (Mat 5 [[10; 10; 50; 50; 1]]%Q)
      (Mat 4 [[10; 10; 50; 50]; [100; 100; 110; 110]]%Q)
      = Ok (assignment, max_overlaps, labels0) /\
    @sample_rois Sample.seeded Sample.cfg0 0 max_overlaps labels0 = Ok s /\
    keep_inds s ≡ₚ [0; 1].
Proof.
  destruct (encode_returns_only_full (RS:=Sample.seeded) Sample.cfg0
              Sample.iou_overlaps Sample.offset_transform
              (Mat 5 [[10; 10; 50; 50; 1]]%Q)
              (Mat 4 [[10; 10; 50; 50]; [100; 100; 110; 110]]%Q)
              eq_refl ltac:(repeat constructor) ltac:(unfold shape0; simpl; lia)
              ltac:(repeat constructor) 0 _ 2 _ _ _ _ encode_scenario)
    as (a & mo & l0 & s & Hm & Hs & Hperm & _).
  - unfold shape0. simpl. lia.
  - unfold Qle. simpl. lia.
  - by exists a, mo, l0, s.
Defined.

Lemma encode_over_budget_raises_witness :
  exists e,
    @encode Sample.seeded (Sample.flags (1 # 2) (1 # 10) 2 (1 # 4))
      Sample.iou_overlaps Sample.offset_transform 0
      (Mat 5 [[10; 10; 50; 50; 1]]%Q)
      (Mat 4 [[100; 100; 110; 110]; [200; 200; 210; 210];
              [300; 300; 310; 310]]%Q) 2
    = Raise e.
Proof.
  apply (encode_over_budget_raises (RS:=Sample.seeded)
           (Sample.flags (1 # 2) (1 # 10) 2 (1 # 4))
           Sample.iou_overlaps Sample.offset_transform
           (Mat 5 [[10; 10; 50; 50; 1]]%Q)
           (Mat 4 [[100; 100; 110; 110]; [200; 200; 210; 210];
                   [300; 300; 310; 310]]%Q)
           eq_refl ltac:(repeat constructor) ltac:(unfold shape0; simpl; lia)
           ltac:(repeat constructor) 0 2).
  - repeat split; unfold Qle; simpl; lia.
  - unfold shape0. simpl. lia.
  - unfold shape0. simpl. lia.
Defined.

Lemma encode_no_ground_truth_witness :
  Sample.encode0 0 (Mat 5 []) (Mat 4 [[10; 10; 50; 50]]%Q) 2
  = Raise ValueError.
Proof.
  apply (encode_no_ground_truth (RS:=Sample.seeded) Sample.cfg0
           Sample.iou_overlaps Sample.offset_transform
           (Mat 5 []) (Mat 4 [[10; 10; 50; 50]]%Q)
           eq_refl ltac:(repeat constructor) 0 2 eq_refl).
  unfold shape0. simpl. lia.
Defined.

Lemma encode_all_background_witness :
  Sample.encode0 5 (Mat 5 [[10; 10; 50; 50; 1]]%Q)
    (Mat 4 [[100; 100; 110; 110]; [200; 200; 210; 210]]%Q) 2
  = Ok ([0; 0]%Q,
        Mat 4 [[100; 100; 110; 110]; [200; 200; 210; 210]]%Q,
        Arr2 (Mat 8 [replicate 8 0%Q; replicate 8 0%Q]),
        Arr2 (Mat 8 [replicate 8 0%Q; replicate 8 0%Q]),
        5).
Proof.
  apply (encode_all_background (RS:=Sample.seeded) Sample.cfg0
           Sample.iou_overlaps Sample.offset_transform
           (Mat 5 [[10; 10; 50; 50; 1]]%Q)
           (Mat 4 [[100; 100; 110; 110]; [200; 200; 210; 210]]%Q)
           eq_refl ltac:(repeat constructor) 5 2).
  - unfold shape0. simpl. lia.
  - repeat constructor.
  - unfold shape1. simpl. lia.
  - unfold shape1. simpl. lia.
  - lia.
  - repeat constructor.
  - unfold shape0. simpl. lia.
Defined.

(** X13 at two proposals of classes 1 and 2 that the generator keeps in
    the order [1; 0]: each gets the mask of the other's class. *)
Lemma encode_weights_by_position_witness :
  exists labels r T Wm st',
    Sample.encode0 1 (Mat 5 [[10; 10; 50; 50; 1]; [100; 100; 150; 150; 2]]%Q)
      (Mat 4 [[10; 10; 50; 50]; [100; 100; 150; 150]]%Q) 3
      = Ok (labels, r, T, Arr2 Wm, st') /\
    labels = [1; 2]%Q /\
    rows Wm !! 1 = Some (class_mask 12 1) /\
    rows Wm !! 0 = Some (class_mask 12 2).
Proof.
  eexists _, _, _, _, _. split; [reflexivity|]. split; [reflexivity|].
  destruct (encode_weights_by_position (RS:=Sample.seeded) Sample.cfg0
              Sample.iou_overlaps Sample.offset_transform
              offset_transform_cols 1 _
              (Mat 5 [[10; 10; 50; 50; 1]; [100; 100; 150; 150; 2]]%Q)
              (Mat 4 [[10; 10; 50; 50]; [100; 100; 150; 150]]%Q) _ 3 _ _ _
              ltac:(repeat constructor; simpl; lia)
              ltac:(repeat constructor; simpl; lia) eq_refl)
    as (a & mo & l0 & s & Wm & Hm & Hs & HW & Hrows).
  { unfold Qle. simpl. lia. }
  vm_compute in Hm. injection Hm as <- <- <-.
  vm_compute in Hs. injection Hs as <-.
  injection HW as <-.
  split; [exact (Hrows 0 1 1%Q eq_refl eq_refl)
         |exact (Hrows 1 0 2%Q eq_refl eq_refl)].
Defined.

(** ** The script: one-hot scores decoded *)

Lemma py_index_in_range (n : nat) (k : Z) :
  (0 <= k < Z.of_nat n)%Z -> py_index n k = Ok (Z.to_nat k).
Proof.
  intros H. unfold py_index.
  replace (0 <=? k)%Z with true by lia. by replace (k <? Z.of_nat n)%Z with true by lia.
Qed.

Lemma mark_labels_spec (labels : list Z) (ps : list nat) (ls : list (list Q)) :
  NoDup ps ->
  (forall i, i ∈ ps ->
     exists l row, labels !! i = Some l /\ ls !! i = Some row /\
                   (0 <= l < Z.of_nat (length row))%Z) ->
  exists ls', mark_labels labels ls ps = Ok ls' /\
    length ls' = length ls /\
    forall i,
      (i ∉ ps -> ls' !! i = ls !! i) /\
      (i ∈ ps -> forall l row, labels !! i = Some l -> ls !! i = Some row ->
                 ls' !! i = Some (<[Z.to_nat l := 1%Q]> row)).
Proof.
  revert ls. induction ps as [|i ps IH]; intros ls Hnd Hpre; simpl.
  - exists ls. split; [done|]. split; [done|]. intros i. split; [done|].
    by intros ?%elem_of_nil.
  - apply NoDup_cons in Hnd as [Hnin Hnd].
    destruct (Hpre i) as (l & row & Hl & Hrow & Hrange); [by left|].
    unfold mark_label.
    rewrite (proj2 (getitem_Ok _ _ _) Hl). cbn [mbind result_bind].
    rewrite (proj2 (getitem_Ok _ _ _) Hrow). cbn [mbind result_bind].
    rewrite py_index_in_range by done. cbn [mbind result_bind].
    destruct (IH (<[i := <[Z.to_nat l := 1%Q]> row]> ls) Hnd)
      as (ls' & Hrun & Hlen & Hls').
    { intros j Hj. assert (i <> j) as Hne by by intros ->.
      destruct (Hpre j) as (l' & row' & ? & ? & ?); [by right|].
      exists l', row'. by rewrite list_lookup_insert_ne by done. }
    exists ls'. split; [done|]. split; [by rewrite Hlen, length_insert|].
    intros j. split.
    + intros [Hne Hj]%not_elem_of_cons.
      rewrite (proj1 (Hls' j) Hj). by rewrite list_lookup_insert_ne by done.
    + intros Hj l' row' Hl' Hrow'.
      destruct (decide (j = i)) as [->|Hne].
      * rewrite (proj1 (Hls' i) Hnin).
        rewrite list_lookup_insert_eq by by eapply lookup_lt_Some.
        by simplify_eq.
      * apply elem_of_cons in Hj as [?|Hj]; [done|].
        apply (proj2 (Hls' j) Hj); [done|].
        by rewrite list_lookup_insert_ne by done.
Qed.

Lemma first_max_one_hot (n c : nat) :
  c < n -> first_max (<[c := 1%Q]> (replicate n 0%Q)) c 1%Q.
Proof.
  intros Hc. repeat split.
  - apply list_lookup_insert_eq. by rewrite length_replicate.
  - intros k y Hk. destruct (decide (c = k)) as [->|Hne].
    + rewrite list_lookup_insert_eq in Hk by by rewrite length_replicate.
      by injection Hk as <-.
    + rewrite list_lookup_insert_ne in Hk by done.
      by apply lookup_replicate in Hk as [-> _].
  - intros k y Hk Hy. rewrite list_lookup_insert_ne in Hy by lia.
    by apply lookup_replicate in Hy as [-> _].
Qed.

Section Script.

Variable bbox_transform_inv : matrix -> matrix -> matrix.
Variable clip_boxes : matrix -> Q * Q -> matrix.

(** X14: the script's round trip.  For labels in [0, 3) and decoded boxes
    of one row of twelve columns per label, the one-hot scores of the labels
    are built without error and [decode] gives the labels back as classes,
    every confidence being 1, and selects for each proposal the block of
    four columns of its label. *)
Theorem one_hot_decode (labels : list Z) (bbox_targets rois : matrix) :
  Forall (fun l => (0 <= l < 3)%Z) labels ->
  shape0 (bbox_transform_inv rois bbox_targets) = length labels ->
  Forall (fun r => length r = 12) (rows (bbox_transform_inv rois bbox_targets)) ->
  exists selected,
    decode_labels bbox_transform_inv clip_boxes labels bbox_targets rois
      = Ok (clip_boxes (Mat 4 selected) (100, 100)%Q,
            map Z.to_nat labels, replicate (length labels) 1%Q) /\
    length selected = length labels /\
    forall i l drow,
      labels !! i = Some l ->
      rows (bbox_transform_inv rois bbox_targets) !! i = Some drow ->
      selected !! i
      = Some (slice (Z.to_nat l * 4) (Z.to_nat l * 4 + 4) drow).
Proof.
  intros Hrange Hrows Hwidth.
  set (decoded := bbox_transform_inv rois bbox_targets) in *.
  set (n := length labels) in *.
  destruct (mark_labels_spec labels (seq 0 n) (replicate n (replicate 3 0%Q)))
    as (ls & Hls & Hlslen & Hlsrows).
  { apply NoDup_seq. }
  { intros i [_ Hi]%elem_of_seq. simpl in Hi.
    destruct (lookup_lt_is_Some_2 labels i Hi) as [l Hl].
    exists l, (replicate 3 0%Q). split; [done|].
    split; [by apply lookup_replicate_2|].
    by apply (Forall_lookup_1 _ _ _ _ Hrange Hl). }
  rewrite length_replicate in Hlslen.
  assert (forall i l, labels !! i = Some l ->
            ls !! i = Some (<[Z.to_nat l := 1%Q]> (replicate 3 0%Q)) /\
            Z.to_nat l < 3) as Hrow.
  { intros i l Hl.
    pose proof (Forall_lookup_1 _ _ _ _ Hrange Hl) as Hr. simpl in Hr.
    split; [|lia].
    apply (proj2 (Hlsrows i)); [|done|].
    - apply elem_of_seq. apply lookup_lt_Some in Hl. unfold n. lia.
    - apply lookup_replicate_2. by eapply lookup_lt_Some. }
  assert (mapM argmax ls = Ok (map Z.to_nat labels) /\
          mapM amax ls = Ok (replicate n 1%Q)) as [Hcl Hconf].
  { split; apply mapM_Ok, Forall2_same_length_lookup_2;
      rewrite ?length_map, ?length_replicate; try done.
    - intros i row c Hi Hc.
      apply list_lookup_fmap_Some in Hc as (l & -> & Hl).
      destruct (Hrow i l Hl) as [Hrowi Hlt].
      assert (row = <[Z.to_nat l := 1%Q]> (replicate 3 0%Q)) as -> by congruence.
      destruct (argmax_amax_first_max (<[Z.to_nat l := 1%Q]> (replicate 3 0%Q)))
        as (j & m & Hj & _ & Hfm).
      { intros Hnil. apply (f_equal length) in Hnil.
        by rewrite length_insert in Hnil. }
      destruct (first_max_unique _ _ _ _ _ Hfm (first_max_one_hot 3 _ Hlt))
        as [-> _].
      done.
    - intros i row m Hi Hm.
      apply lookup_replicate in Hm as [-> Hlt].
      destruct (lookup_lt_is_Some_2 labels i Hlt) as [l Hl].
      destruct (Hrow i l Hl) as [Hrowi Hlt'].
      assert (row = <[Z.to_nat l := 1%Q]> (replicate 3 0%Q)) as -> by congruence.
      destruct (argmax_amax_first_max (<[Z.to_nat l := 1%Q]> (replicate 3 0%Q)))
        as (j & m & _ & Hm & Hfm).
      { intros Hnil. apply (f_equal length) in Hnil.
        by rewrite length_insert in Hnil. }
      destruct (first_max_unique _ _ _ _ _ Hfm (first_max_one_hot 3 _ Hlt'))
        as [_ ->].
      done. }
  unfold shape0 in Hrows.
  assert (forall i l drow, labels !! i = Some l -> rows decoded !! i = Some drow ->
            select_box decoded (map Z.to_nat labels) i
            = Ok (slice (Z.to_nat l * 4) (Z.to_nat l * 4 + 4) drow)) as Hbox.
  { intros i l drow Hl Hd. apply select_box_ok; [|done|].
    - by rewrite list_lookup_fmap, Hl.
    - pose proof (Forall_lookup_1 _ _ _ _ Hwidth Hd) as Hlen. simpl in Hlen.
      destruct (Hrow i l Hl) as [_ Hlt]. lia. }
  destruct (mapM_total (select_box decoded (map Z.to_nat labels))
              (seq 0 (length (rows decoded)))) as [sel Hsel].
  { apply Forall_forall. intros i [_ Hi]%elem_of_seq. simpl in Hi.
    destruct (lookup_lt_is_Some_2 labels i) as [l Hl]; [unfold n in *; lia|].
    destruct (lookup_lt_is_Some_2 (rows decoded) i Hi) as [drow Hd].
    eexists. by apply Hbox. }
  pose proof (proj1 (mapM_Ok _ _ _) Hsel) as Hsel2.
  exists sel. split; [|split].
  - unfold decode_labels, one_hot. rewrite zeros2_nonneg by lia.
    cbn [mbind result_bind rows ncols]. change (Z.to_nat 3) with 3.
    fold n. rewrite Hls. cbn [mbind result_bind].
    unfold decode. fold decoded. cbn [rows].
    rewrite Hcl. cbn [mbind result_bind]. rewrite Hconf.
    cbn [mbind result_bind]. unfold shape0. by rewrite Hsel.
  - apply Forall2_length in Hsel2. rewrite length_seq in Hsel2. lia.
  - intros i l drow Hl Hd.
    assert (seq 0 (length (rows decoded)) !! i = Some i) as Hi.
    { apply lookup_seq. split; [done|]. by eapply lookup_lt_Some. }
    destruct (Forall2_lookup_l _ _ _ _ _ Hsel2 Hi) as (b & Hb & Hb').
    rewrite (Hbox i l drow Hl Hd) in Hb'. by injection Hb' as <-.
Qed.

End Script.

Lemma one_hot_decode_witness :
  exists selected,
    decode_labels Sample.offset_transform_inv Sample.clamp_boxes [2; 0]%Z
      (Mat 12 [replicate 12 0%Q; replicate 12 0%Q])
      (Mat 4 [[10; 10; 50; 50]; [20; 20; 60; 60]]%Q)
    = Ok (Sample.clamp_boxes (Mat 4 selected) (100, 100)%Q,
          [2; 0], [1; 1]%Q) /\
    length selected = 2.
Proof.
  destruct (one_hot_decode Sample.offset_transform_inv Sample.clamp_boxes
              [2; 0]%Z (Mat 12 [replicate 12 0%Q; replicate 12 0%Q])
              (Mat 4 [[10; 10; 50; 50]; [20; 20; 60; 60]]%Q))
    as (sel & Hrun & Hlen & _).
  - repeat constructor; lia.
  - reflexivity.
  - repeat constructor.
  - exists sel. split; [exact Hrun|exact Hlen].
Defined.
